(** * Temporary voice channel bot: the voice-state handler of [main.go]

    A shallow embedding of [onVoiceStateUpdate] together with its helpers
    [contains] and [remove], and the properties of the handler stated in
    the specification.

    The handler talks to the Discord session [h.s] (package [state] of
    arikawa).  Its answers are not determined by the program, so the
    session is an abstract world [W] with one transition function per
    method the handler calls; every call is recorded, with its call site,
    its arguments and its answer, in a trace that only the theorems read.
    The output of [fmt.Printf] and [log.Println] is not modelled, and the
    mutex [h.mu] (taken on entry, released on exit) disappears because
    notifications are processed one at a time. *)

From Stdlib Require Import ZArith DecimalString DecimalN.
From stdpp Require Import base gmap list strings.

Open Scope string_scope.
Open Scope list_scope.
Open Scope Z_scope.

(** ** Package [discord]: identifiers and the values the handler reads *)

(** Modelled from the spec: the identifier types are declared by the
    arikawa library, outside [src/].  A [Snowflake] is a [uint64]; the
    specification's "none" value is a snowflake that is not valid, which
    is either the zero value (what a Go map returns for a missing key) or
    [NullSnowflake], the all-ones word. *)
Abbreviation Snowflake := Z (only parsing).
Abbreviation ChannelID := Z (only parsing).
Abbreviation UserID := Z (only parsing).
Abbreviation GuildID := Z (only parsing).

Definition NullSnowflake : Snowflake := Z.ones 64.

(** Modelled from the spec: [Snowflake.IsValid] of the arikawa library.
    An identifier is valid when it is neither zero nor [NullSnowflake]. *)
Definition Snowflake_IsValid (id : Snowflake) : bool :=
  negb ((id =? 0) || (id =? NullSnowflake)).

(** Modelled from the spec: [Snowflake.String] of the arikawa library,
    the empty string for an identifier that is not valid (the "none"
    the handler tests for at lines 86 and 158) and the decimal digits of
    the identifier otherwise. *)
Definition Snowflake_String (id : Snowflake) : string :=
  if Snowflake_IsValid id
  then NilEmpty.string_of_uint (N.to_uint (Z.to_N id))
  else "".

(** Modelled from the spec: the records below are declared by the
    arikawa library; each keeps the fields that the handler reads or
    writes, and [Channel] those that section 3 of the specification
    lists. *)
Inductive ChannelType : Type :=
  | GuildText
  | DirectMessage
  | GuildVoice
  | GroupDM
  | GuildCategory.

Record User : Type := mkUser {
  User_ID : UserID;
  User_Username : string
}.

Record Member : Type := mkMember {
  Member_User : User
}.

(** [Member] is a pointer in the Go struct: [None] is [nil]. *)
Record VoiceState : Type := mkVoiceState {
  VoiceState_GuildID : GuildID;
  VoiceState_ChannelID : ChannelID;
  VoiceState_UserID : UserID;
  VoiceState_Member : option Member;
  VoiceState_SessionID : string;
  VoiceState_SelfMute : bool
}.

(** The zero value of the struct, which indexing a Go map yields for a
    key that is absent. *)
Definition zeroVoiceState : VoiceState :=
  mkVoiceState 0 0 0 None "" false.

Record Channel : Type := mkChannel {
  Channel_ID : ChannelID;
  Channel_GuildID : GuildID;
  Channel_Type : ChannelType;
  Channel_Name : string;
  Channel_ParentID : ChannelID;
  Channel_DMRecipients : list User
}.

(** ** Package [api]: request payloads *)

Record CreateChannelData : Type := mkCreateChannelData {
  Create_Name : string;
  Create_Type : ChannelType;
  Create_CategoryID : ChannelID
}.

Record ModifyMemberData : Type := mkModifyMemberData {
  Modify_VoiceChannel : ChannelID
}.

(** ** Package [gateway]: the notification *)

(** [gateway.VoiceStateUpdateEvent] embeds [discord.VoiceState], so that
    [evt.UserID], [evt.ChannelID] and [evt.Member] are the fields of the
    embedded value. *)
Record VoiceStateUpdateEvent : Type := mkEvent {
  evt_VoiceState : VoiceState
}.

Definition evt_UserID (evt : VoiceStateUpdateEvent) : UserID :=
  VoiceState_UserID (evt_VoiceState evt).
Definition evt_ChannelID (evt : VoiceStateUpdateEvent) : ChannelID :=
  VoiceState_ChannelID (evt_VoiceState evt).
Definition evt_Member (evt : VoiceStateUpdateEvent) : option Member :=
  VoiceState_Member (evt_VoiceState evt).

(** ** Package [state]: the session *)

(** A Go [error] value; only its presence matters to the handler. *)
Abbreviation error := string (only parsing).

Inductive result (A : Type) : Type :=
  | Ok (a : A)
  | Err (e : error).
Arguments Ok {A} a.
Arguments Err {A} e.

Definition is_ok {A : Type} (r : result A) : bool :=
  match r with Ok _ => true | Err _ => false end.

(** Modelled from the spec: the five methods of [*state.State] that the
    handler calls, the outbound calls of section 6.  Each one takes the
    current world and gives back its answer and the next world (the
    session consults and fills a cache, and the guild changes).  The
    methods are parameters of the development: every theorem holds for
    every instance. *)
Class State (W : Type) : Type := {
  State_Channel : ChannelID → W → result Channel * W;
  State_Channels : GuildID → W → result (list Channel) * W;
  State_CreateChannel : GuildID → CreateChannelData → W → result Channel * W;
  State_DeleteChannel : ChannelID → string → W → result unit * W;
  State_ModifyMember : GuildID → UserID → ModifyMemberData → W → result unit * W
}.

(** ** The trace of session calls *)

(** The places of [onVoiceStateUpdate] that call the session, named after
    what the call is for; the comment gives the source line. *)
Inductive site : Type :=
  | AfterChannelFetch    (* line 89:  h.s.Channel(evt.ChannelID) *)
  | CloneCreate          (* line 96:  h.s.CreateChannel, voice channel *)
  | CloneMove            (* line 105: h.s.ModifyMember *)
  | TeamsCategory        (* line 116: h.s.CreateChannel, category *)
  | TeamsText            (* line 125: h.s.CreateChannel, text channel *)
  | TeamsVoice           (* line 135: h.s.CreateChannel, voice channel *)
  | TeamsMove            (* line 145: h.s.ModifyMember *)
  | BeforeChannelFetch   (* line 160: h.s.Channel(before.ChannelID) *)
  | LeaveDelete          (* line 168: h.s.DeleteChannel(beforeChannel.ID) *)
  | CategoryFetch        (* line 178: h.s.Channel(categoryID) *)
  | CategoryList         (* line 180: h.s.Channels(category.GuildID) *)
  | CategoryChildDelete  (* line 187: h.s.DeleteChannel(channel.ID) *)
  | CategoryDelete.      (* line 190: h.s.DeleteChannel(category.ID) *)

Inductive call : Type :=
  | GetChannel (id : ChannelID) (r : result Channel)
  | ListChannels (guild : GuildID) (r : result (list Channel))
  | CreateChannel (guild : GuildID) (data : CreateChannelData) (r : result Channel)
  | DeleteChannel (id : ChannelID) (reason : string) (r : result unit)
  | MoveMember (guild : GuildID) (user : UserID) (data : ModifyMemberData) (r : result unit).

Definition entry : Type := site * call.

(** ** The helpers [contains] and [remove] *)

(** [contains]: a linear scan that answers at the first match. *)
Fixpoint contains (slice : list ChannelID) (elem : ChannelID) : bool :=
  match slice with
  | [] => false
  | item :: rest => if item =? elem then true else contains rest elem
  end.

(** The index at which the loop of [remove] stops, if it does. *)
Fixpoint remove_index (slice : list ChannelID) (elem : ChannelID) : option nat :=
  match slice with
  | [] => None
  | item :: rest => if item =? elem then Some O else S <$> remove_index rest elem
  end.

(** [remove]: at the first [i] with [slice[i] == elem] the slice becomes
    [append(slice[:i], slice[i+1:]...)] and the loop breaks; without a
    match the slice stays as it is. *)
Definition remove (slice : list ChannelID) (elem : ChannelID) : list ChannelID :=
  match remove_index slice elem with
  | Some i => take i slice ++ drop (S i) slice
  | None => slice
  end.

(** ** Package [main]: the handler *)

(** The [handler] struct.  [s] is the session; the mutex is left out. *)
Record handler (W : Type) : Type := mkHandler {
  s : W;
  userVoiceStates : gmap UserID VoiceState;
  temporaryChannels : list ChannelID;
  temporaryCategories : list ChannelID
}.
Arguments mkHandler {W} _ _ _ _.
Arguments s {W} _.
Arguments userVoiceStates {W} _.
Arguments temporaryChannels {W} _.
Arguments temporaryCategories {W} _.

(** [newHandler]: an empty map and two nil slices. *)
Definition newHandler {W : Type} (s0 : W) : handler W :=
  mkHandler s0 ∅ [] [].

Definition set_s {W : Type} (w : W) (h : handler W) : handler W :=
  mkHandler w (userVoiceStates h) (temporaryChannels h) (temporaryCategories h).
Definition set_userVoiceStates {W : Type} (m : gmap UserID VoiceState)
    (h : handler W) : handler W :=
  mkHandler (s h) m (temporaryChannels h) (temporaryCategories h).
Definition set_temporaryChannels {W : Type} (l : list ChannelID)
    (h : handler W) : handler W :=
  mkHandler (s h) (userVoiceStates h) l (temporaryCategories h).
Definition set_temporaryCategories {W : Type} (l : list ChannelID)
    (h : handler W) : handler W :=
  mkHandler (s h) (userVoiceStates h) (temporaryChannels h) l.

(** What a run of the handler acts on: the struct behind the receiver
    pointer and the trace of the session calls made so far. *)
Record machine (W : Type) : Type := mkMachine {
  self : handler W;
  trace : list entry
}.
Arguments mkMachine {W} _ _.
Arguments self {W} _.
Arguments trace {W} _.

(** How a statement ends: control goes on to the next statement, the
    function returns, or the goroutine panics. *)
Inductive flow (A : Type) : Type :=
  | Next (a : A)
  | Return
  | Panic.
Arguments Next {A} a.
Arguments Return {A}.
Arguments Panic {A}.

Definition M (W A : Type) : Type := machine W → flow A * machine W.

#[global] Instance M_ret {W : Type} : MRet (M W) :=
  λ A a m, (Next a, m).

#[global] Instance M_bind {W : Type} : MBind (M W) :=
  λ A B f c m,
    match c m with
    | (Next a, m') => f a m'
    | (Return, m') => (Return, m')
    | (Panic, m') => (Panic, m')
    end.

Section Statements.
Context {W : Type} `{!State W}.

(** [return] *)
Definition go_return {A : Type} : M W A := λ m, (Return, m).

(** Reading and writing the fields of [h]. *)
Definition get_handler : M W (handler W) := λ m, (Next (self m), m).
Definition modify (f : handler W → handler W) : M W unit :=
  λ m, (Next tt, mkMachine (f (self m)) (trace m)).

(** Following a pointer: a nil pointer panics. *)
Definition deref {A : Type} (p : option A) : M W A :=
  λ m, match p with Some a => (Next a, m) | None => (Panic, m) end.

(** [if b { c }] *)
Definition when (b : bool) (c : M W unit) : M W unit :=
  if b then c else mret tt.

(** [for _, x := range l { body }] *)
Fixpoint for_range {A : Type} (l : list A) (body : A → M W unit) : M W unit :=
  match l with
  | [] => mret tt
  | x :: rest => body x;; for_range rest body
  end.

(** A call of a session method at a call site: the world moves on and
    the call is appended to the trace. *)
Definition invoke {A : Type} (st : site) (f : W → result A * W)
    (mk : result A → call) : M W (result A) :=
  λ m, let (r, w) := f (s (self m)) in
       (Next r, mkMachine (set_s w (self m)) (trace m ++ [(st, mk r)])).

(** [x, err := c; if err != nil { log.Println(...); return }] *)
Definition or_return {A : Type} (c : M W (result A)) : M W A :=
  r ← c; match r with Ok a => mret a | Err _ => go_return end.

Definition h_s_Channel (st : site) (id : ChannelID) : M W (result Channel) :=
  invoke st (State_Channel id) (GetChannel id).
Definition h_s_Channels (st : site) (guild : GuildID) : M W (result (list Channel)) :=
  invoke st (State_Channels guild) (ListChannels guild).
Definition h_s_CreateChannel (st : site) (guild : GuildID)
    (data : CreateChannelData) : M W (result Channel) :=
  invoke st (State_CreateChannel guild data) (CreateChannel guild data).
Definition h_s_DeleteChannel (st : site) (id : ChannelID)
    (reason : string) : M W (result unit) :=
  invoke st (State_DeleteChannel id reason) (DeleteChannel id reason).
Definition h_s_ModifyMember (st : site) (guild : GuildID) (user : UserID)
    (data : ModifyMemberData) : M W (result unit) :=
  invoke st (State_ModifyMember guild user data) (MoveMember guild user data).

(** [h.temporaryChannels = append(h.temporaryChannels, id)], line 112 *)
Definition markChannel (id : ChannelID) (h : handler W) : handler W :=
  set_temporaryChannels (temporaryChannels h ++ [id]) h.

(** [h.temporaryCategories = append(h.temporaryCategories, id)], line 153 *)
Definition markCategory (id : ChannelID) (h : handler W) : handler W :=
  set_temporaryCategories (temporaryCategories h ++ [id]) h.

(** [remove(&h.temporaryChannels, id)], line 172 *)
Definition unmarkChannel (id : ChannelID) (h : handler W) : handler W :=
  set_temporaryChannels (remove (temporaryChannels h) id) h.

(** [remove(&h.temporaryCategories, id)], line 194 *)
Definition unmarkCategory (id : ChannelID) (h : handler W) : handler W :=
  set_temporaryCategories (remove (temporaryCategories h) id) h.

(** The two trigger names, lines 95 and 115. *)
Definition cloneTrigger : string := "🐕 bark".
Definition teamsTrigger : string := "teams".

(** Lines 95 to 113: the clone trigger. *)
Definition cloneChannel (evt : VoiceStateUpdateEvent) (possibleChannelName : string)
    (afterChannel : Channel) : M W unit :=
  tempChannel ← or_return
    (h_s_CreateChannel CloneCreate (Channel_GuildID afterChannel)
       (mkCreateChannelData possibleChannelName GuildVoice
          (Channel_ParentID afterChannel)));
  or_return
    (h_s_ModifyMember CloneMove (Channel_GuildID afterChannel) (evt_UserID evt)
       (mkModifyMemberData (Channel_ID tempChannel)));;
  modify (markChannel (Channel_ID tempChannel)).

(** Lines 115 to 154: the teams trigger.  A [CreateChannelData] without
    [CategoryID] carries the zero value. *)
Definition createTeam (evt : VoiceStateUpdateEvent) (possibleChannelName : string)
    (afterChannel : Channel) : M W unit :=
  temporaryCategory ← or_return
    (h_s_CreateChannel TeamsCategory (Channel_GuildID afterChannel)
       (mkCreateChannelData possibleChannelName GuildCategory 0));
  or_return
    (h_s_CreateChannel TeamsText (Channel_GuildID temporaryCategory)
       (mkCreateChannelData "text" GuildText (Channel_ID temporaryCategory)));;
  tempChannel ← or_return
    (h_s_CreateChannel TeamsVoice (Channel_GuildID temporaryCategory)
       (mkCreateChannelData "voice" GuildVoice (Channel_ID temporaryCategory)));
  or_return
    (h_s_ModifyMember TeamsMove (Channel_GuildID temporaryCategory) (evt_UserID evt)
       (mkModifyMemberData (Channel_ID tempChannel)));;
  modify (markCategory (Channel_ID tempChannel)).

(** Lines 88 to 155: the user joined a channel. *)
Definition onJoin (evt : VoiceStateUpdateEvent) (before : VoiceState)
    (possibleChannelName : string) : M W unit :=
  when (negb (VoiceState_ChannelID before =? evt_ChannelID evt)) (
    afterChannel ← or_return (h_s_Channel AfterChannelFetch (evt_ChannelID evt));
    when (String.eqb (Channel_Name afterChannel) cloneTrigger)
      (cloneChannel evt possibleChannelName afterChannel);;
    when (String.eqb (Channel_Name afterChannel) teamsTrigger)
      (createTeam evt possibleChannelName afterChannel)).

(** Lines 166 to 174: the channel left is a temporary channel. *)
Definition deleteTemporaryChannel (beforeChannel : Channel) : M W unit :=
  h ← get_handler;
  when (contains (temporaryChannels h) (Channel_ID beforeChannel)) (
    when (length (Channel_DMRecipients beforeChannel) =? 0)%nat (
      h_s_DeleteChannel LeaveDelete (Channel_ID beforeChannel) "cleaning up";;
      modify (unmarkChannel (Channel_ID beforeChannel)))).

(** Lines 176 to 196: the channel left is the voice channel of a team. *)
Definition deleteTemporaryCategory (beforeChannel : Channel) : M W unit :=
  let categoryID := Channel_ParentID beforeChannel in
  h ← get_handler;
  when (negb (categoryID =? 0)
        && contains (temporaryCategories h) (Channel_ID beforeChannel)) (
    r ← h_s_Channel CategoryFetch categoryID;
    match r with
    | Ok category =>
        when (length (Channel_DMRecipients beforeChannel) =? 0)%nat (
          channels ← or_return (h_s_Channels CategoryList (Channel_GuildID category));
          for_range channels (λ channel,
            when (Channel_ParentID channel =? categoryID) (
              h_s_DeleteChannel CategoryChildDelete (Channel_ID channel) "cleaning up";;
              mret tt));;
          h_s_DeleteChannel CategoryDelete (Channel_ID category) "cleaning up";;
          modify (unmarkCategory categoryID))
    | Err _ => mret tt
    end).

(** Lines 160 to 196: the user left a channel. *)
Definition onLeave (before : VoiceState) : M W unit :=
  beforeChannel ← or_return
    (h_s_Channel BeforeChannelFetch (VoiceState_ChannelID before));
  deleteTemporaryChannel beforeChannel;;
  deleteTemporaryCategory beforeChannel.

(** Lines 82 to 197: what the handler does once the registry is
    written. *)
Definition dispatch (evt : VoiceStateUpdateEvent) (before : VoiceState) : M W unit :=
  member ← deref (evt_Member evt);
  let possibleChannelName := User_Username (Member_User member) +:+ "'s room" in
  when (String.eqb (Snowflake_String (VoiceState_ChannelID before)) ""
        && Snowflake_IsValid (evt_ChannelID evt))
    (onJoin evt before possibleChannelName);;
  when (Snowflake_IsValid (VoiceState_ChannelID before)
        && String.eqb (Snowflake_String (evt_ChannelID evt)) "")
    (onLeave before).

(** [onVoiceStateUpdate], lines 73 to 198. *)
Definition onVoiceStateUpdate (evt : VoiceStateUpdateEvent) : M W unit :=
  h ← get_handler;
  let before := default zeroVoiceState (userVoiceStates h !! evt_UserID evt) in
  modify (set_userVoiceStates
            (<[evt_UserID evt := evt_VoiceState evt]> (userVoiceStates h)));;
  dispatch evt before.

(** One notification delivered to a handler: how the call ended and
    what it left behind. *)
Definition handle (evt : VoiceStateUpdateEvent) (m : machine W) : machine W :=
  snd (onVoiceStateUpdate evt m).

Definition panicked (evt : VoiceStateUpdateEvent) (m : machine W) : bool :=
  match fst (onVoiceStateUpdate evt m) with Panic => true | _ => false end.

(** The session calls made while one notification is processed. *)
Definition calls (evt : VoiceStateUpdateEvent) (m : machine W) : list entry :=
  drop (length (trace m)) (trace (handle evt m)).

(** A run of notifications, delivered in order.  A panic is not
    recovered, so the process ends with the notification that panics. *)
Fixpoint deliver (evts : list VoiceStateUpdateEvent) (m : machine W) : machine W :=
  match evts with
  | [] => m
  | evt :: rest =>
      if panicked evt m then handle evt m else deliver rest (handle evt m)
  end.

(** A fresh process: [newHandler] and no call made yet. *)
Definition start (s0 : W) : machine W := mkMachine (newHandler s0) [].

End Statements.

(** ** A guild in memory

    A small session with which the handler can be run: the world is the
    list of the channels that exist, the next identifier to hand out, and
    three switches that make a kind of request fail. *)

Record guild : Type := mkGuild {
  guild_channels : list Channel;
  guild_next : ChannelID;
  guild_create_fails : bool;
  guild_move_fails : bool;
  guild_delete_fails : bool
}.

Definition guild_find (id : ChannelID) (g : guild) : result Channel :=
  match List.find (λ c, Channel_ID c =? id) (guild_channels g) with
  | Some c => Ok c
  | None => Err "Unknown Channel"
  end.

Definition guild_create (gid : GuildID) (data : CreateChannelData) (g : guild)
    : result Channel * guild :=
  if guild_create_fails g then (Err "Missing Permissions", g)
  else
    let c := mkChannel (guild_next g) gid (Create_Type data) (Create_Name data)
               (Create_CategoryID data) [] in
    (Ok c, mkGuild (guild_channels g ++ [c]) (guild_next g + 1)
             (guild_create_fails g) (guild_move_fails g) (guild_delete_fails g)).

Definition guild_delete (id : ChannelID) (g : guild) : result unit * guild :=
  if guild_delete_fails g then (Err "Missing Permissions", g)
  else
    (Ok tt, mkGuild (List.filter (λ c, negb (Channel_ID c =? id)) (guild_channels g))
              (guild_next g) (guild_create_fails g) (guild_move_fails g)
              (guild_delete_fails g)).

#[global] Instance guild_State : State guild := {
  State_Channel id g := (guild_find id g, g);
  State_Channels gid g :=
    (Ok (List.filter (λ c, Channel_GuildID c =? gid) (guild_channels g)), g);
  State_CreateChannel gid data g := guild_create gid data g;
  State_DeleteChannel id _ g := guild_delete id g;
  State_ModifyMember _ _ _ g :=
    (if guild_move_fails g then Err "Missing Permissions" else Ok tt, g)
}.

(** Guild 1 with a lobby for each trigger and an ordinary voice channel;
    new channels are numbered from 100. *)
Definition lobby : list Channel :=
  [ mkChannel 10 1 GuildCategory "Voice Channels" 0 [];
    mkChannel 11 1 GuildVoice cloneTrigger 10 [];
    mkChannel 12 1 GuildVoice teamsTrigger 10 [];
    mkChannel 13 1 GuildVoice "General" 10 [] ].

Definition discordia : guild := mkGuild lobby 100 false false false.

(** User 7, "nari", seen in channel [c] ([0] when they are in none). *)
Definition nari : Member := mkMember (mkUser 7 "nari").
Definition nari_in (c : ChannelID) : VoiceStateUpdateEvent :=
  mkEvent (mkVoiceState 1 c 7 (Some nari) "session" false).

(** User 8, "mio". *)
Definition mio : Member := mkMember (mkUser 8 "mio").
Definition mio_in (c : ChannelID) : VoiceStateUpdateEvent :=
  mkEvent (mkVoiceState 1 c 8 (Some mio) "session" false).

(** ** Relations between the machine before and after a statement *)

(** Whatever the machine a statement starts in, the machine it leaves
    is related to it by [R]. *)
Definition stable {W A : Type} (R : relation (machine W)) (c : M W A) : Prop :=
  ∀ m, R m (snd (c m)).

(** The registry is the same map. *)
Definition same_registry {W : Type} : relation (machine W) :=
  λ m m', userVoiceStates (self m') = userVoiceStates (self m).

(** The machine in which the body of the handler runs once line 80 has
    written the registry, and the value line 78 has read. *)
Definition before_of {W : Type} (evt : VoiceStateUpdateEvent) (m : machine W)
    : VoiceState :=
  default zeroVoiceState (userVoiceStates (self m) !! evt_UserID evt).

Definition written {W : Type} (evt : VoiceStateUpdateEvent) (m : machine W)
    : machine W :=
  mkMachine
    (set_userVoiceStates
       (<[evt_UserID evt := evt_VoiceState evt]> (userVoiceStates (self m)))
       (self m))
    (trace m).

(** ** Reading a trace *)

Definition is_CreateChannel (c : call) : bool :=
  match c with CreateChannel _ _ _ => true | _ => false end.
Definition is_DeleteChannel (c : call) : bool :=
  match c with DeleteChannel _ _ _ => true | _ => false end.
Definition is_MoveMember (c : call) : bool :=
  match c with MoveMember _ _ _ _ => true | _ => false end.

(** How many calls of a kind a trace holds. *)
Definition count_calls (kind : call → bool) (tr : list entry) : nat :=
  length (List.filter (λ e, kind (snd e)) tr).

(** The join guard of line 86 and the leave guard of line 158. *)
Definition joins (before : VoiceState) (evt : VoiceStateUpdateEvent) : bool :=
  String.eqb (Snowflake_String (VoiceState_ChannelID before)) ""
  && Snowflake_IsValid (evt_ChannelID evt).
Definition leaves (before : VoiceState) (evt : VoiceStateUpdateEvent) : bool :=
  Snowflake_IsValid (VoiceState_ChannelID before)
  && String.eqb (Snowflake_String (evt_ChannelID evt)) "".

(** ** The life of a temporary channel, read off the trace *)

(** Two consecutive calls that hand a new channel over to a user: the
    [CreateChannel] of the clone branch answered with a channel, and the
    [ModifyMember] that follows succeeded. *)
Definition handed_over (e next : entry) : option ChannelID :=
  match e, next with
  | (CloneCreate, CreateChannel _ _ (Ok c)), (CloneMove, MoveMember _ _ _ (Ok _)) =>
      Some (Channel_ID c)
  | _, _ => None
  end.

(** The channels the clone branch created and handed over, oldest first. *)
Fixpoint provisioned (tr : list entry) : list ChannelID :=
  match tr with
  | [] => []
  | e :: rest =>
      match rest with
      | [] => []
      | next :: _ =>
          match handed_over e next with
          | Some id => id :: provisioned rest
          | None => provisioned rest
          end
      end
  end.

(** The channel a [DeleteChannel] call of the leave branch (line 168) is
    about, whatever the answer. *)
Definition teardown_of (e : entry) : option ChannelID :=
  match e with
  | (LeaveDelete, DeleteChannel id _ _) => Some id
  | _ => None
  end.

(** The channels the leave branch tried to delete, oldest first. *)
Definition torn_down (tr : list entry) : list ChannelID := omap teardown_of tr.

(** The channels a [CreateChannel] call of the clone branch answered
    with, and the channels a [DeleteChannel] call of the leave branch
    deleted with success. *)
Definition created_of (e : entry) : option ChannelID :=
  match e with
  | (CloneCreate, CreateChannel _ _ (Ok c)) => Some (Channel_ID c)
  | _ => None
  end.
Definition deleted_of (e : entry) : option ChannelID :=
  match e with
  | (LeaveDelete, DeleteChannel id _ (Ok _)) => Some id
  | _ => None
  end.
Definition created (tr : list entry) : list ChannelID := omap created_of tr.
Definition deleted (tr : list entry) : list ChannelID := omap deleted_of tr.

(** The invariant of the specification, word for word: an identifier is
    tracked exactly when a [CreateChannel] call of the clone branch
    returned it and no [DeleteChannel] call of the leave branch has
    deleted it with success. *)
Definition tracks_created_not_deleted {W : Type} (m : machine W) : Prop :=
  ∀ id, In id (temporaryChannels (self m))
        ↔ In id (created (trace m)) ∧ ¬ In id (deleted (trace m)).

(** A piece of trace that does not begin with the [ModifyMember] call of
    the clone branch, so that no hand-over straddles its beginning. *)
Definition starts_clean (new : list entry) : Prop :=
  match new with
  | (CloneMove, _) :: _ => False
  | _ => True
  end.

(** The calls made between two machines account for the difference
    between their [temporaryChannels]: every hand-over added one
    occurrence of an identifier and every teardown took one away. *)
Definition accounted {W : Type} : relation (machine W) :=
  λ m m', ∃ new,
    trace m' = trace m ++ new
    ∧ starts_clean new
    ∧ ∀ id,
        (count_occ Z.eq_dec (temporaryChannels (self m')) id
         + count_occ Z.eq_dec (torn_down new) id
         = count_occ Z.eq_dec (temporaryChannels (self m)) id
           + count_occ Z.eq_dec (provisioned new) id)%nat.

(** The specification's contract for marking an identifier that is
    already tracked: the membership of the set is unchanged and no
    duplicate entry is introduced. *)
Definition mark_is_idempotent {W : Type} (mark : ChannelID → handler W → handler W)
    (tracker : handler W → list ChannelID) : Prop :=
  ∀ id h, In id (tracker h) →
    (∀ x, In x (tracker (mark id h)) ↔ In x (tracker h))
    ∧ (List.NoDup (tracker h) → List.NoDup (tracker (mark id h))).

(** An identifier that [temporaryCategories] holds stays in it. *)
Definition keeps_category {W : Type} (id : ChannelID) : relation (machine W) :=
  λ m m', In id (temporaryCategories (self m))
          → In id (temporaryCategories (self m')).

(** Guilds in which a kind of request is refused. *)
Definition no_deleting : guild := mkGuild lobby 100 false false true.
Definition no_moving : guild := mkGuild lobby 100 false true false.
Definition no_creating : guild := mkGuild lobby 100 true false false.

(** ** Further readings of the handler and of its trace *)

(** The channels of a listing that the loop of line 185 deletes: those
    whose parent is the category. *)
Definition children_of (categoryID : ChannelID) (channels : list Channel)
    : list Channel :=
  List.filter (λ channel, Channel_ParentID channel =? categoryID) channels.

(** A trace entry is the [DeleteChannel] call of line 187 for a channel,
    whatever the answer. *)
Definition deletes_child (e : entry) (channel : Channel) : Prop :=
  ∃ r, e = (CategoryChildDelete,
            DeleteChannel (Channel_ID channel) "cleaning up" r).

(** The voice channel a successful [ModifyMember] call of the teams
    branch (line 145) moved a user into. *)
Definition team_voice_of (e : entry) : option ChannelID :=
  match e with
  | (TeamsMove, MoveMember _ _ data (Ok _)) => Some (Modify_VoiceChannel data)
  | _ => None
  end.
Definition team_voices (tr : list entry) : list ChannelID := omap team_voice_of tr.

(** Every identifier that [temporaryCategories] holds afterwards was held
    before or is the voice channel of a team set up in between. *)
Definition categories_accounted {W : Type} : relation (machine W) :=
  λ m m', ∃ new,
    trace m' = trace m ++ new
    ∧ ∀ id, In id (temporaryCategories (self m'))
            → In id (temporaryCategories (self m)) ∨ In id (team_voices new).

(** The trace is only ever appended to: it does not get shorter. *)
Definition grows {W : Type} : relation (machine W) :=
  λ m m', (length (trace m) ≤ length (trace m'))%nat.

(** A statement that does not panic, whatever machine it starts in. *)
Definition calm {W A : Type} (c : M W A) : Prop :=
  ∀ m, fst (c m) ≠ Panic.

(** The registry after the map stores of line 80 for a list of
    notifications, in order. *)
Definition recorded (evts : list VoiceStateUpdateEvent)
    (registry : gmap Z VoiceState) : gmap Z VoiceState :=
  foldl (λ reg evt, <[evt_UserID evt := evt_VoiceState evt]> reg) registry evts.

(** The machine once nari has a team and is seen in its voice channel
    102, and once nari has a room 100 and is seen in it. *)
Definition team_of_nari : machine guild :=
  deliver [nari_in 12; nari_in 102] (start discordia).
Definition room_of_nari : machine guild :=
  deliver [nari_in 11; nari_in 100] (start discordia).

(** The channels the bot makes for nari in [discordia]. *)
Definition nari_room : Channel := mkChannel 100 1 GuildVoice "nari's room" 10 [].
Definition nari_category : Channel :=
  mkChannel 100 1 GuildCategory "nari's room" 0 [].
Definition nari_text : Channel := mkChannel 101 1 GuildText "text" 100 [].
Definition nari_voice : Channel := mkChannel 102 1 GuildVoice "voice" 100 [].

(** A guild with one group call that mio is a recipient of, and nari seen
    in it. *)
Definition party : Channel := mkChannel 20 1 GroupDM "party" 0 [mkUser 8 "mio"].
Definition party_guild : guild := mkGuild [party] 100 false false false.
Definition nari_at_party : machine guild :=
  mkMachine
    (mkHandler party_guild (<[7 := evt_VoiceState (nari_in 20)]> ∅) [20] [])
    [].

(** nari in the voice channel of a team whose category is gone from the
    guild. *)
Definition orphaned : machine guild :=
  mkMachine
    (mkHandler (mkGuild [nari_voice] 103 false false false)
       (<[7 := evt_VoiceState (nari_in 102)]> ∅) [] [102])
    [].

(** A session over the guild in memory whose channel listing is out of
    order; every other request is passed on. *)
Record unlisted : Type := mkUnlisted { unlisted_guild : guild }.

Definition unlisted_lift {A : Type} (answer : A * guild) : A * unlisted :=
  (fst answer, mkUnlisted (snd answer)).

#[global] Instance unlisted_State : State unlisted := {
  State_Channel id u := unlisted_lift (State_Channel id (unlisted_guild u));
  State_Channels _ u := (Err "Service Unavailable", u);
  State_CreateChannel gid data u :=
    unlisted_lift (State_CreateChannel gid data (unlisted_guild u));
  State_DeleteChannel id reason u :=
    unlisted_lift (State_DeleteChannel id reason (unlisted_guild u));
  State_ModifyMember gid user data u :=
    unlisted_lift (State_ModifyMember gid user data (unlisted_guild u))
}.

(** nari's team in a session whose listing is out of order. *)
Definition team_unlisted : machine unlisted :=
  mkMachine
    (mkHandler (mkUnlisted (s (self team_of_nari)))
       (userVoiceStates (self team_of_nari)) [] [102])
    [].

(** The two tests of lines 166 and 167: the channel left is in
    [temporaryChannels] and has no DM recipients, so that lines 168 to
    172 run. *)
Definition standalone_teardown {W : Type} (h : handler W) (beforeChannel : Channel)
    : bool :=
  contains (temporaryChannels h) (Channel_ID beforeChannel)
  && (length (Channel_DMRecipients beforeChannel) =? 0)%nat.

(** The machines [orphaned] and [team_unlisted] with the voice channel
    102 in both trackers. *)
Definition orphaned_room : machine guild :=
  mkMachine
    (mkHandler (mkGuild [nari_voice] 103 false false false)
       (<[7 := evt_VoiceState (nari_in 102)]> ∅) [102] [102])
    [].
Definition team_unlisted_room : machine unlisted :=
  mkMachine
    (mkHandler (mkUnlisted (s (self team_of_nari)))
       (userVoiceStates (self team_of_nari)) [102] [102])
    [].

(* ================================================================== *)
(** * Properties *)

(** ** Identifiers: valid or none *)

Lemma string_of_uint_empty (d : Decimal.uint) :
  NilEmpty.string_of_uint d = "" → d = Decimal.Nil.
Proof.
  intros Hd. pose proof (NilEmpty.usu d) as Hu. rewrite Hd in Hu.
  simpl in Hu. congruence.
Qed.

Lemma to_uint_not_nil (n : N) : N.to_uint n ≠ Decimal.Nil.
Proof.
  intros Hn. pose proof (Unsigned.of_to n) as Hof. rewrite Hn in Hof.
  simpl in Hof. subst n. discriminate Hn.
Qed.

(** [id.String() == ""] holds exactly when [id.IsValid()] does not. *)
Lemma Snowflake_String_empty (id : Snowflake) :
  String.eqb (Snowflake_String id) "" = negb (Snowflake_IsValid id).
Proof.
  unfold Snowflake_String. destruct (Snowflake_IsValid id); simpl; [|reflexivity].
  apply String.eqb_neq. intros Hs. apply string_of_uint_empty in Hs.
  exact (to_uint_not_nil _ Hs).
Qed.

(** ** The helpers *)

Lemma contains_In (slice : list ChannelID) (elem : ChannelID) :
  contains slice elem = true ↔ In elem slice.
Proof.
  induction slice as [|item rest IH]; simpl.
  - split; [discriminate | tauto].
  - destruct (Z.eqb_spec item elem) as [->|Hne].
    + split; auto.
    + rewrite IH. split; [auto | intros [He|Hin]; [congruence | exact Hin]].
Qed.

Lemma remove_nil (elem : ChannelID) : remove [] elem = [].
Proof. reflexivity. Qed.

Lemma remove_cons (item : ChannelID) (rest : list ChannelID) (elem : ChannelID) :
  remove (item :: rest) elem =
  if item =? elem then rest else item :: remove rest elem.
Proof.
  unfold remove. simpl. destruct (item =? elem); [reflexivity|].
  destruct (remove_index rest elem); reflexivity.
Qed.

(** Removing an element takes away its first occurrence and no other. *)
Lemma count_occ_remove (slice : list ChannelID) (elem id : ChannelID) :
  count_occ Z.eq_dec (remove slice elem) id =
  if decide (id = elem)
  then Nat.pred (count_occ Z.eq_dec slice id)
  else count_occ Z.eq_dec slice id.
Proof.
  induction slice as [|item rest IH].
  - rewrite remove_nil. simpl. case_decide; reflexivity.
  - rewrite remove_cons. destruct (Z.eqb_spec item elem) as [->|Hne].
    + simpl. case_decide as Hid.
      * subst id. destruct (Z.eq_dec elem elem); [reflexivity | congruence].
      * destruct (Z.eq_dec elem id); [congruence | reflexivity].
    + simpl. destruct (Z.eq_dec item id) as [->|Hid].
      * rewrite IH. case_decide; [congruence | reflexivity].
      * rewrite IH. reflexivity.
Qed.

Lemma In_remove_other (slice : list ChannelID) (elem id : ChannelID) :
  id ≠ elem → In id slice → In id (remove slice elem).
Proof.
  intros Hne Hin. apply (count_occ_In Z.eq_dec).
  rewrite count_occ_remove. case_decide; [congruence|].
  apply (count_occ_In Z.eq_dec), Hin.
Qed.

(** ** Statements that keep a relation between machines *)

Section Stable.
Context {W : Type} `{!State W}.
Context (R : relation (machine W)) `{!PreOrder R}.

Lemma stable_ret {A : Type} (a : A) : stable R (mret a : M W A).
Proof. intros m. simpl. reflexivity. Qed.

Lemma stable_bind {A B : Type} (c : M W A) (f : A → M W B) :
  stable R c → (∀ a, stable R (f a)) → stable R (c ≫= f).
Proof.
  intros Hc Hf m. unfold mbind, M_bind. specialize (Hc m).
  destruct (c m) as [[a| |] m']; simpl in *; [|exact Hc|exact Hc].
  transitivity m'; [exact Hc | apply Hf].
Qed.

Lemma stable_go_return {A : Type} : stable R (@go_return W A).
Proof. intros m. simpl. reflexivity. Qed.

Lemma stable_get_handler : stable R (@get_handler W).
Proof. intros m. simpl. reflexivity. Qed.

Lemma stable_deref {A : Type} (p : option A) : stable R (@deref W A p).
Proof. intros m. unfold deref. destruct p; simpl; reflexivity. Qed.

Lemma stable_when (b : bool) (c : M W unit) : stable R c → stable R (when b c).
Proof. intros Hc. destruct b; simpl; [exact Hc | apply stable_ret]. Qed.

Lemma stable_for_range {A : Type} (l : list A) (body : A → M W unit) :
  (∀ x, stable R (body x)) → stable R (for_range l body).
Proof.
  intros Hbody. induction l as [|x rest IH]; simpl.
  - apply stable_ret.
  - apply stable_bind; [apply Hbody | intros _; exact IH].
Qed.

Lemma stable_or_return {A : Type} (c : M W (result A)) :
  stable R c → stable R (or_return c).
Proof.
  intros Hc. unfold or_return. apply stable_bind; [exact Hc|].
  intros [a|e]; [apply stable_ret | apply stable_go_return].
Qed.

Lemma stable_modify (f : handler W → handler W) :
  (∀ m, R m (mkMachine (f (self m)) (trace m))) → stable R (modify f).
Proof. intros Hf m. apply Hf. Qed.

Lemma stable_invoke {A : Type} (st : site) (f : W → result A * W)
    (mk : result A → call) :
  (∀ m w r, R m (mkMachine (set_s w (self m)) (trace m ++ [(st, mk r)]))) →
  stable R (invoke st f mk).
Proof.
  intros Hi m. unfold invoke. destruct (f (s (self m))) as [r w]. apply Hi.
Qed.
End Stable.

#[global] Instance same_registry_pre {W : Type} : PreOrder (@same_registry W).
Proof.
  split.
  - intros m. reflexivity.
  - intros m1 m2 m3 H12 H23. unfold same_registry in *. congruence.
Qed.

(** Takes a statement apart along its binds, branches and loops. *)
Ltac stable_walk custom leaf :=
  repeat first
    [ match goal with |- PreOrder _ => apply _ end
    | custom
    | apply stable_ret | apply stable_go_return | apply stable_get_handler
    | apply stable_deref | apply stable_when | apply stable_for_range
    | apply stable_or_return | apply stable_bind
    | apply stable_invoke; leaf | apply stable_modify; leaf
    | progress cbv zeta
    | match goal with |- stable _ (match ?r with _ => _ end) => destruct r end
    | progress intros ].

(** ** The registry *)

Section Registry.
Context {W : Type} `{!State W}.

Lemma onVoiceStateUpdate_dispatch (evt : VoiceStateUpdateEvent) (m : machine W) :
  onVoiceStateUpdate evt m = dispatch evt (before_of evt m) (written evt m).
Proof. reflexivity. Qed.

(** Nothing after line 80 touches the registry. *)
Lemma dispatch_same_registry (evt : VoiceStateUpdateEvent) (before : VoiceState) :
  stable same_registry (dispatch evt before).
Proof.
  unfold dispatch, onJoin, onLeave, cloneChannel, createTeam,
    deleteTemporaryChannel, deleteTemporaryCategory,
    h_s_Channel, h_s_Channels, h_s_CreateChannel, h_s_DeleteChannel,
    h_s_ModifyMember.
  stable_walk fail ltac:(intros; reflexivity).
Qed.

Lemma handle_registry (evt : VoiceStateUpdateEvent) (m : machine W) :
  userVoiceStates (self (handle evt m)) =
  <[evt_UserID evt := evt_VoiceState evt]> (userVoiceStates (self m)).
Proof.
  unfold handle. rewrite onVoiceStateUpdate_dispatch.
  apply (dispatch_same_registry evt (before_of evt m) (written evt m)).
Qed.

(** When neither the join guard of line 86 nor the leave guard of line
    158 holds, the body does nothing. *)
Lemma dispatch_idle (evt : VoiceStateUpdateEvent) (before : VoiceState)
    (m : machine W) :
  String.eqb (Snowflake_String (VoiceState_ChannelID before)) ""
    && Snowflake_IsValid (evt_ChannelID evt) = false →
  Snowflake_IsValid (VoiceState_ChannelID before)
    && String.eqb (Snowflake_String (evt_ChannelID evt)) "" = false →
  snd (dispatch evt before m) = m.
Proof.
  intros Hjoin Hleave. unfold dispatch, deref, mbind, M_bind.
  destruct (evt_Member evt) as [member|]; [|reflexivity].
  rewrite Hjoin, Hleave. reflexivity.
Qed.

(** C8. After the handler has run on a notification, the registry maps
    the notification's user to the membership the notification carries,
    whatever the session answered to the calls of the workflow (the
    theorem holds for every session and every world, and also when the
    handler stops early): the entry is written before the transition is
    classified and no later statement writes the registry. *)
Theorem registry_holds_new_membership (evt : VoiceStateUpdateEvent) (m : machine W) :
  userVoiceStates (self (handle evt m)) !! evt_UserID evt
  = Some (evt_VoiceState evt).
Proof. rewrite handle_registry. apply lookup_insert_eq. Qed.

(** C10. Processing one notification leaves the registry entry of every
    user other than the notification's user as it was. *)
Theorem registry_other_users_untouched (evt : VoiceStateUpdateEvent)
    (m : machine W) (u : UserID) :
  u ≠ evt_UserID evt →
  userVoiceStates (self (handle evt m)) !! u = userVoiceStates (self m) !! u.
Proof.
  intros Hu. rewrite handle_registry. apply lookup_insert_ne. congruence.
Qed.

(** The body does nothing on a move and on a resent notification. *)
Lemma handle_idle (evt : VoiceStateUpdateEvent) (m : machine W) :
  (Snowflake_IsValid (VoiceState_ChannelID (before_of evt m)) = true
     ∧ Snowflake_IsValid (evt_ChannelID evt) = true
     ∧ VoiceState_ChannelID (before_of evt m) ≠ evt_ChannelID evt)
  ∨ VoiceState_ChannelID (before_of evt m) = evt_ChannelID evt →
  handle evt m = written evt m.
Proof.
  intros Hkind. unfold handle. rewrite onVoiceStateUpdate_dispatch.
  apply dispatch_idle; rewrite Snowflake_String_empty.
  - destruct Hkind as [(Hb & He & _)|Heq].
    + rewrite Hb. reflexivity.
    + rewrite Heq. destruct (Snowflake_IsValid (evt_ChannelID evt)); reflexivity.
  - destruct Hkind as [(Hb & He & _)|Heq].
    + rewrite He. apply andb_false_r.
    + rewrite Heq. destruct (Snowflake_IsValid (evt_ChannelID evt)); reflexivity.
Qed.

Lemma calls_written (evt : VoiceStateUpdateEvent) (m : machine W) :
  handle evt m = written evt m → calls evt m = [].
Proof. intros Hw. unfold calls. rewrite Hw. simpl. apply drop_all. Qed.

(** C6. A notification whose previous and new channel are both valid
    and differ (a move), or are equal (a resent notification), makes the
    handler call the session not at all: the trace and the world stay as
    they are, and of the handler's fields only the registry changes, by
    the overwrite of the user's entry.  Both tracker slices are
    untouched, so a move out of a tracked channel tears nothing down. *)
Theorem move_or_noop_only_overwrites (evt : VoiceStateUpdateEvent) (m : machine W) :
  (Snowflake_IsValid (VoiceState_ChannelID (before_of evt m)) = true
     ∧ Snowflake_IsValid (evt_ChannelID evt) = true
     ∧ VoiceState_ChannelID (before_of evt m) ≠ evt_ChannelID evt)
  ∨ VoiceState_ChannelID (before_of evt m) = evt_ChannelID evt →
  calls evt m = []
  ∧ trace (handle evt m) = trace m
  ∧ self (handle evt m) =
      mkHandler (s (self m))
        (<[evt_UserID evt := evt_VoiceState evt]> (userVoiceStates (self m)))
        (temporaryChannels (self m)) (temporaryCategories (self m)).
Proof.
  intros Hkind. pose proof (handle_idle evt m Hkind) as Hw.
  split; [exact (calls_written evt m Hw)|]. rewrite Hw. split; reflexivity.
Qed.

(** C7. A notification delivered a second time right after its first
    delivery is a no-op: the second run calls the session not at all and
    leaves the whole machine, which holds the world, the registry and
    both tracker slices, exactly as the first run left it. *)
Theorem redelivery_is_noop (evt : VoiceStateUpdateEvent) (m : machine W) :
  calls evt (handle evt m) = []
  ∧ handle evt (handle evt m) = handle evt m.
Proof.
  assert (userVoiceStates (self (handle evt m)) !! evt_UserID evt
          = Some (evt_VoiceState evt)) as Hreg.
  { rewrite handle_registry. apply lookup_insert_eq. }
  assert (VoiceState_ChannelID (before_of evt (handle evt m)) = evt_ChannelID evt)
    as Hsame.
  { unfold before_of. rewrite Hreg. reflexivity. }
  pose proof (handle_idle evt (handle evt m) (or_intror Hsame)) as Hw.
  split; [exact (calls_written _ _ Hw)|].
  rewrite Hw. unfold written. rewrite (insert_id _ _ _ Hreg).
  destruct (handle evt m) as [[w1 r1 c1 g1] t1]. reflexivity.
Qed.
End Registry.

(** ** Joining a trigger channel *)

(** Projections of a machine that was just built. *)
Ltac simpl_machine :=
  cbn [fst snd self trace s userVoiceStates temporaryChannels temporaryCategories
       set_s set_userVoiceStates set_temporaryChannels set_temporaryCategories].

(** Runs the monadic definitions on the machine at hand. *)
Ltac run :=
  cbv [mbind M_bind mret M_ret or_return invoke go_return when modify
       get_handler h_s_Channel h_s_Channels h_s_CreateChannel h_s_DeleteChannel
       h_s_ModifyMember]; simpl_machine.

Section Join.
Context {W : Type} `{!State W}.
Implicit Types (evt : VoiceStateUpdateEvent) (m : machine W).

(** On a join only lines 89 to 154 run: the guard of line 88 holds and
    the leave guard of line 158 does not. *)
Lemma handle_join evt m (member : Member) :
  joins (before_of evt m) evt = true →
  evt_Member evt = Some member →
  let possibleChannelName := User_Username (Member_User member) +:+ "'s room" in
  handle evt m =
  snd ((afterChannel ← or_return (h_s_Channel AfterChannelFetch (evt_ChannelID evt));
        when (String.eqb (Channel_Name afterChannel) cloneTrigger)
          (cloneChannel evt possibleChannelName afterChannel);;
        when (String.eqb (Channel_Name afterChannel) teamsTrigger)
          (createTeam evt possibleChannelName afterChannel)) (written evt m)).
Proof.
  intros Hjoin Hmember name. unfold handle.
  rewrite onVoiceStateUpdate_dispatch. unfold dispatch.
  rewrite Hmember. fold name. fold (joins (before_of evt m) evt).
  fold (leaves (before_of evt m) evt). rewrite Hjoin.
  unfold joins in Hjoin. rewrite Snowflake_String_empty in Hjoin.
  apply andb_true_iff in Hjoin as [Hb He]. apply negb_true_iff in Hb.
  assert (leaves (before_of evt m) evt = false) as ->.
  { unfold leaves. rewrite Hb. reflexivity. }
  assert ((VoiceState_ChannelID (before_of evt m) =? evt_ChannelID evt) = false) as Hne.
  { apply Z.eqb_neq. intros Heq. rewrite Heq in Hb. congruence. }
  unfold onJoin. rewrite Hne. simpl negb.
  unfold deref. cbv [mbind M_bind when mret M_ret].
  match goal with |- snd (match ?c with _ => _ end) = snd ?d =>
    change d with c; destruct c as [[[]| |] m'] end; reflexivity.
Qed.

Lemma clone_is_not_teams : String.eqb cloneTrigger teamsTrigger = false.
Proof. reflexivity. Qed.

(** The machine a join of the clone trigger leaves behind. *)
Lemma clone_path evt m (member : Member) (afterChannel : Channel) (w1 : W) :
  joins (before_of evt m) evt = true →
  evt_Member evt = Some member →
  State_Channel (evt_ChannelID evt) (s (self m)) = (Ok afterChannel, w1) →
  Channel_Name afterChannel = cloneTrigger →
  let guild := Channel_GuildID afterChannel in
  let data := mkCreateChannelData (User_Username (Member_User member) +:+ "'s room")
                GuildVoice (Channel_ParentID afterChannel) in
  let created := State_CreateChannel guild data w1 in
  let move c := mkModifyMemberData (Channel_ID c) in
  let moved c := State_ModifyMember guild (evt_UserID evt) (move c) (snd created) in
  let fetch := (AfterChannelFetch, GetChannel (evt_ChannelID evt) (Ok afterChannel)) in
  let create := (CloneCreate, CreateChannel guild data (fst created)) in
  handle evt m =
  match fst created with
  | Err _ =>
      mkMachine (set_s (snd created) (self (written evt m)))
        (trace m ++ [fetch; create])
  | Ok c =>
      let h := set_s (snd (moved c)) (self (written evt m)) in
      mkMachine (if is_ok (fst (moved c)) then markChannel (Channel_ID c) h else h)
        (trace m ++ [fetch; create;
                     (CloneMove, MoveMember guild (evt_UserID evt) (move c)
                                   (fst (moved c)))])
  end.
Proof.
  intros Hjoin Hmember Hfetch Hname. cbv zeta.
  rewrite (handle_join evt m member Hjoin Hmember).
  unfold cloneChannel, written. run. rewrite Hfetch. simpl_machine.
  rewrite Hname, String.eqb_refl, clone_is_not_teams. simpl_machine.
  destruct (State_CreateChannel _ _ w1) as [[c|e] w2]; simpl_machine.
  - destruct (State_ModifyMember _ _ _ w2) as [[[]|e] w3];
      simpl_machine; cbn [is_ok]; rewrite <- ?app_assoc; reflexivity.
  - rewrite <- ?app_assoc. reflexivity.
Qed.

Lemma teams_is_not_clone : String.eqb teamsTrigger cloneTrigger = false.
Proof. reflexivity. Qed.

(** The machine a join of the teams trigger leaves behind. *)
Lemma teams_path evt m (member : Member) (afterChannel : Channel) (w1 : W) :
  joins (before_of evt m) evt = true →
  evt_Member evt = Some member →
  State_Channel (evt_ChannelID evt) (s (self m)) = (Ok afterChannel, w1) →
  Channel_Name afterChannel = teamsTrigger →
  let h0 := self (written evt m) in
  let fetch := (AfterChannelFetch, GetChannel (evt_ChannelID evt) (Ok afterChannel)) in
  let catData := mkCreateChannelData (User_Username (Member_User member) +:+ "'s room")
                   GuildCategory 0 in
  let cat := State_CreateChannel (Channel_GuildID afterChannel) catData w1 in
  let catCall := (TeamsCategory,
                  CreateChannel (Channel_GuildID afterChannel) catData (fst cat)) in
  handle evt m =
  match fst cat with
  | Err _ => mkMachine (set_s (snd cat) h0) (trace m ++ [fetch; catCall])
  | Ok category =>
      let guild := Channel_GuildID category in
      let textData := mkCreateChannelData "text" GuildText (Channel_ID category) in
      let text := State_CreateChannel guild textData (snd cat) in
      let textCall := (TeamsText, CreateChannel guild textData (fst text)) in
      match fst text with
      | Err _ =>
          mkMachine (set_s (snd text) h0) (trace m ++ [fetch; catCall; textCall])
      | Ok _ =>
          let voiceData :=
            mkCreateChannelData "voice" GuildVoice (Channel_ID category) in
          let voice := State_CreateChannel guild voiceData (snd text) in
          let voiceCall := (TeamsVoice, CreateChannel guild voiceData (fst voice)) in
          match fst voice with
          | Err _ =>
              mkMachine (set_s (snd voice) h0)
                (trace m ++ [fetch; catCall; textCall; voiceCall])
          | Ok tempChannel =>
              let move := mkModifyMemberData (Channel_ID tempChannel) in
              let moved := State_ModifyMember guild (evt_UserID evt) move (snd voice) in
              let h := set_s (snd moved) h0 in
              mkMachine
                (if is_ok (fst moved) then markCategory (Channel_ID tempChannel) h
                 else h)
                (trace m ++ [fetch; catCall; textCall; voiceCall;
                             (TeamsMove,
                              MoveMember guild (evt_UserID evt) move (fst moved))])
          end
      end
  end.
Proof.
  intros Hjoin Hmember Hfetch Hname. cbv zeta.
  rewrite (handle_join evt m member Hjoin Hmember).
  unfold createTeam, written. run. rewrite Hfetch. simpl_machine.
  rewrite Hname, String.eqb_refl, teams_is_not_clone. simpl_machine.
  destruct (State_CreateChannel _ _ w1) as [[category|e] w2]; simpl_machine;
    [|rewrite <- ?app_assoc; reflexivity].
  destruct (State_CreateChannel _ _ w2) as [[text|e] w3]; simpl_machine;
    [|rewrite <- ?app_assoc; reflexivity].
  destruct (State_CreateChannel _ _ w3) as [[tempChannel|e] w4]; simpl_machine;
    [|rewrite <- ?app_assoc; reflexivity].
  destruct (State_ModifyMember _ _ _ w4) as [[[]|e] w5];
    simpl_machine; cbn [is_ok]; rewrite <- ?app_assoc; reflexivity.
Qed.

Lemma joins_intro evt m :
  Snowflake_String (VoiceState_ChannelID (before_of evt m)) = "" →
  Snowflake_IsValid (evt_ChannelID evt) = true →
  joins (before_of evt m) evt = true.
Proof. intros Hb He. unfold joins. rewrite Hb, He. reflexivity. Qed.

(** C1. When a user who was in no channel joins a channel whose name is
    the clone trigger (the notification carries the member, whose name
    the new channel takes), the handler, after fetching that channel,
    makes exactly one [CreateChannel] call: a voice channel in the
    trigger channel's guild and under its parent, named after the joining
    user with ['s room] appended.  When the call answers with a channel,
    exactly one [ModifyMember] call follows that moves the joining user
    into the channel just created, and no other call is made.  When both
    calls succeed the identifier of the created channel is appended to
    [temporaryChannels], which is otherwise left as it was. *)
Theorem clone_trigger_provisions evt m (member : Member)
    (afterChannel : Channel) (w1 : W) :
  Snowflake_String (VoiceState_ChannelID (before_of evt m)) = "" →
  Snowflake_IsValid (evt_ChannelID evt) = true →
  evt_Member evt = Some member →
  State_Channel (evt_ChannelID evt) (s (self m)) = (Ok afterChannel, w1) →
  Channel_Name afterChannel = cloneTrigger →
  let guild := Channel_GuildID afterChannel in
  let data := mkCreateChannelData (User_Username (Member_User member) +:+ "'s room")
                GuildVoice (Channel_ParentID afterChannel) in
  let created := State_CreateChannel guild data w1 in
  let move c := mkModifyMemberData (Channel_ID c) in
  let moved c := State_ModifyMember guild (evt_UserID evt) (move c) (snd created) in
  calls evt m =
    (AfterChannelFetch, GetChannel (evt_ChannelID evt) (Ok afterChannel))
    :: (CloneCreate, CreateChannel guild data (fst created))
    :: match fst created with
       | Ok c => [(CloneMove,
                   MoveMember guild (evt_UserID evt) (move c) (fst (moved c)))]
       | Err _ => []
       end
  ∧ count_calls is_CreateChannel (calls evt m) = 1%nat
  ∧ count_calls is_MoveMember (calls evt m)
    = (if is_ok (fst created) then 1 else 0)%nat
  ∧ temporaryChannels (self (handle evt m)) =
    temporaryChannels (self m)
    ++ match fst created with
       | Ok c => if is_ok (fst (moved c)) then [Channel_ID c] else []
       | Err _ => []
       end.
Proof.
  intros Hb He Hmember Hfetch Hname. cbv zeta.
  pose proof (clone_path evt m member afterChannel w1
                (joins_intro evt m Hb He) Hmember Hfetch Hname) as Hpath.
  cbv zeta in Hpath. unfold calls. rewrite Hpath.
  destruct (State_CreateChannel _ _ w1) as [[c|e] w2]; simpl_machine.
  - destruct (State_ModifyMember _ _ _ w2) as [[[]|e] w3];
      simpl_machine; cbn [is_ok markChannel]; simpl_machine;
      rewrite !drop_app_length, ?app_nil_r; repeat split; reflexivity.
  - rewrite !drop_app_length, app_nil_r. repeat split; reflexivity.
Qed.

(** C5. On the clone path, when the [CreateChannel] call fails no
    [ModifyMember] call is made and [temporaryChannels] is as it was; and
    when the [ModifyMember] call fails after [CreateChannel] succeeded,
    the identifier of the created channel is not added either:
    [temporaryChannels] is as it was. *)
Theorem clone_failure_registers_nothing evt m (member : Member)
    (afterChannel : Channel) (w1 : W) :
  Snowflake_String (VoiceState_ChannelID (before_of evt m)) = "" →
  Snowflake_IsValid (evt_ChannelID evt) = true →
  evt_Member evt = Some member →
  State_Channel (evt_ChannelID evt) (s (self m)) = (Ok afterChannel, w1) →
  Channel_Name afterChannel = cloneTrigger →
  let guild := Channel_GuildID afterChannel in
  let data := mkCreateChannelData (User_Username (Member_User member) +:+ "'s room")
                GuildVoice (Channel_ParentID afterChannel) in
  let created := State_CreateChannel guild data w1 in
  let moved c := State_ModifyMember guild (evt_UserID evt)
                   (mkModifyMemberData (Channel_ID c)) (snd created) in
  (∀ e, fst created = Err e →
     count_calls is_MoveMember (calls evt m) = 0%nat
     ∧ temporaryChannels (self (handle evt m)) = temporaryChannels (self m))
  ∧ (∀ c e, fst created = Ok c → fst (moved c) = Err e →
       temporaryChannels (self (handle evt m)) = temporaryChannels (self m)).
Proof.
  intros Hb He Hmember Hfetch Hname. cbv zeta.
  pose proof (clone_path evt m member afterChannel w1
                (joins_intro evt m Hb He) Hmember Hfetch Hname) as Hpath.
  cbv zeta in Hpath. unfold calls. rewrite Hpath.
  destruct (State_CreateChannel _ _ w1) as [[c|e] w2]; simpl_machine.
  - split; [intros e' [=]|]. intros c' e' [= <-] Hmoved.
    rewrite Hmoved. reflexivity.
  - split; [|intros c' e' [=]]. intros _ _.
    rewrite drop_app_length. split; reflexivity.
Qed.

(** C4. When a user who was in no channel joins a channel named
    [teams], the handler, after fetching that channel, makes in this
    order: one [CreateChannel] call for a category named after the user;
    one for a text channel whose parent is that category; one for a
    voice channel whose parent is that category; one [ModifyMember] call
    that moves the user into the new voice channel.  Each call is made
    only when all the calls before it succeeded, and no other call is
    made.  When all four succeed the identifier of the new voice channel
    is appended to [temporaryCategories]; when one fails,
    [temporaryCategories] is as it was.  [temporaryChannels] is as it was
    in every case. *)
Theorem teams_trigger_provisions evt m (member : Member)
    (afterChannel : Channel) (w1 : W) :
  Snowflake_String (VoiceState_ChannelID (before_of evt m)) = "" →
  Snowflake_IsValid (evt_ChannelID evt) = true →
  evt_Member evt = Some member →
  State_Channel (evt_ChannelID evt) (s (self m)) = (Ok afterChannel, w1) →
  Channel_Name afterChannel = teamsTrigger →
  let catData := mkCreateChannelData (User_Username (Member_User member) +:+ "'s room")
                   GuildCategory 0 in
  let cat := State_CreateChannel (Channel_GuildID afterChannel) catData w1 in
  let textData c := mkCreateChannelData "text" GuildText (Channel_ID c) in
  let text c := State_CreateChannel (Channel_GuildID c) (textData c) (snd cat) in
  let voiceData c := mkCreateChannelData "voice" GuildVoice (Channel_ID c) in
  let voice c := State_CreateChannel (Channel_GuildID c) (voiceData c) (snd (text c)) in
  let move v := mkModifyMemberData (Channel_ID v) in
  let moved c v := State_ModifyMember (Channel_GuildID c) (evt_UserID evt) (move v)
                     (snd (voice c)) in
  calls evt m =
    (AfterChannelFetch, GetChannel (evt_ChannelID evt) (Ok afterChannel))
    :: (TeamsCategory, CreateChannel (Channel_GuildID afterChannel) catData (fst cat))
    :: match fst cat with
       | Err _ => []
       | Ok c =>
           (TeamsText, CreateChannel (Channel_GuildID c) (textData c) (fst (text c)))
           :: match fst (text c) with
              | Err _ => []
              | Ok _ =>
                  (TeamsVoice,
                   CreateChannel (Channel_GuildID c) (voiceData c) (fst (voice c)))
                  :: match fst (voice c) with
                     | Err _ => []
                     | Ok v =>
                         [(TeamsMove,
                           MoveMember (Channel_GuildID c) (evt_UserID evt) (move v)
                             (fst (moved c v)))]
                     end
              end
       end
  ∧ temporaryCategories (self (handle evt m)) =
    temporaryCategories (self m)
    ++ match fst cat with
       | Err _ => []
       | Ok c =>
           match fst (text c) with
           | Err _ => []
           | Ok _ =>
               match fst (voice c) with
               | Err _ => []
               | Ok v => if is_ok (fst (moved c v)) then [Channel_ID v] else []
               end
           end
       end
  ∧ temporaryChannels (self (handle evt m)) = temporaryChannels (self m).
Proof.
  intros Hb He Hmember Hfetch Hname. cbv zeta.
  pose proof (teams_path evt m member afterChannel w1
                (joins_intro evt m Hb He) Hmember Hfetch Hname) as Hpath.
  cbv zeta in Hpath. unfold calls. rewrite Hpath.
  destruct (State_CreateChannel _ _ w1) as [[category|e] w2]; simpl_machine;
    [|rewrite drop_app_length, app_nil_r; auto].
  destruct (State_CreateChannel _ _ w2) as [[text|e] w3]; simpl_machine;
    [|rewrite drop_app_length, app_nil_r; auto].
  destruct (State_CreateChannel _ _ w3) as [[tempChannel|e] w4]; simpl_machine;
    [|rewrite drop_app_length, app_nil_r; auto].
  rewrite drop_app_length.
  destruct (State_ModifyMember _ _ _ w4) as [[[]|e] w5];
    simpl_machine; cbn [is_ok markCategory]; simpl_machine;
    rewrite ?app_nil_r; auto.
Qed.
End Join.

(** ** The tracker of temporary channels over a run *)

Lemma handed_over_clean (e next : entry) (rest : list entry) :
  starts_clean (next :: rest) → handed_over e next = None.
Proof.
  destruct next as [st c]. destruct e as [st' c'].
  destruct st; simpl; try tauto; intros _;
    destruct st'; try reflexivity; destruct c' as [| |? ? []| |]; reflexivity.
Qed.

Lemma provisioned_single (e : entry) : provisioned [e] = [].
Proof. reflexivity. Qed.

(** A hand-over is two consecutive calls, so a trace can be read piece
    by piece as long as no piece begins in the middle of one. *)
Lemma provisioned_app (tr new : list entry) :
  starts_clean new → provisioned (tr ++ new) = provisioned tr ++ provisioned new.
Proof.
  intros Hclean. induction tr as [|e [|e2 tr] IH].
  - reflexivity.
  - destruct new as [|next rest]; [reflexivity|].
    change (provisioned ([e] ++ next :: rest))
      with (match handed_over e next with
            | Some id => id :: provisioned (next :: rest)
            | None => provisioned (next :: rest)
            end).
    rewrite (handed_over_clean e next rest Hclean). reflexivity.
  - change (provisioned ((e :: e2 :: tr) ++ new))
      with (match handed_over e e2 with
            | Some id => id :: provisioned ((e2 :: tr) ++ new)
            | None => provisioned ((e2 :: tr) ++ new)
            end).
    change (provisioned (e :: e2 :: tr))
      with (match handed_over e e2 with
            | Some id => id :: provisioned (e2 :: tr)
            | None => provisioned (e2 :: tr)
            end).
    rewrite IH. destruct (handed_over e e2); reflexivity.
Qed.

Lemma starts_clean_app (new1 new2 : list entry) :
  starts_clean new1 → starts_clean new2 → starts_clean (new1 ++ new2).
Proof. destruct new1; simpl; auto. Qed.

#[global] Instance accounted_pre {W : Type} : PreOrder (@accounted W).
Proof.
  split.
  - intros m. exists []. rewrite app_nil_r. simpl. auto.
  - intros m1 m2 m3 (new1 & Ht1 & Hc1 & Hn1) (new2 & Ht2 & Hc2 & Hn2).
    exists (new1 ++ new2). split; [|split].
    + rewrite Ht2, Ht1, app_assoc. reflexivity.
    + apply starts_clean_app; assumption.
    + intros id. specialize (Hn1 id). specialize (Hn2 id).
      rewrite (provisioned_app new1 new2 Hc2). unfold torn_down in *.
      rewrite omap_app, !count_occ_app. lia.
Qed.

Section Tracker.
Context {W : Type} `{!State W}.
Implicit Types (evt : VoiceStateUpdateEvent) (m : machine W).

(** A call that is neither the move of the clone branch nor the
    deletion of the leave branch, made without touching the tracker. *)
Lemma accounted_call m (h : handler W) (st : site) (c : call) :
  st ≠ CloneMove → st ≠ LeaveDelete →
  temporaryChannels h = temporaryChannels (self m) →
  accounted m (mkMachine h (trace m ++ [(st, c)])).
Proof.
  intros Hmove Hdelete Hsame. exists [(st, c)]. split; [reflexivity|]. split.
  - destruct st; simpl; first [exact I | congruence].
  - intros id. simpl_machine. rewrite Hsame, provisioned_single.
    destruct st; first [congruence | simpl; lia].
Qed.

Lemma accounted_silent m (h : handler W) :
  temporaryChannels h = temporaryChannels (self m) →
  accounted m (mkMachine h (trace m)).
Proof.
  intros Hsame. exists []. rewrite app_nil_r. simpl_machine. rewrite Hsame.
  simpl. auto.
Qed.

(** Lines 96 to 112 taken together. *)
Lemma cloneChannel_accounted evt (possibleChannelName : string)
    (afterChannel : Channel) :
  stable accounted (cloneChannel evt possibleChannelName afterChannel).
Proof.
  intros m. unfold cloneChannel. run.
  destruct (State_CreateChannel _ _ (s (self m))) as [[c|e] w2]; simpl_machine.
  - destruct (State_ModifyMember _ _ _ w2) as [[[]|e] w3]; simpl_machine;
      eexists; (split; [rewrite <- app_assoc; reflexivity|]);
      (split; [exact I|]); intros id; unfold markChannel; simpl.
    + rewrite count_occ_app. simpl. destruct (Z.eq_dec _ _); lia.
    + lia.
  - apply accounted_call; [discriminate | discriminate | reflexivity].
Qed.

(** Lines 166 to 174 taken together. *)
Lemma deleteTemporaryChannel_accounted (beforeChannel : Channel) :
  stable accounted (deleteTemporaryChannel beforeChannel).
Proof.
  intros m. unfold deleteTemporaryChannel. run.
  destruct (contains _ _) eqn:Htracked; [|reflexivity].
  destruct (length _ =? 0)%nat; [|reflexivity].
  destruct (State_DeleteChannel _ _ (s (self m))) as [r w2]. simpl_machine.
  eexists. split; [reflexivity|]. split; [exact I|]. intros id.
  unfold unmarkChannel. simpl_machine. rewrite provisioned_single.
  rewrite count_occ_remove. simpl.
  apply contains_In, (count_occ_In Z.eq_dec) in Htracked.
  case_decide as Hid.
  - subst id. destruct (Z.eq_dec _ _); [lia | congruence].
  - destruct (Z.eq_dec _ _); [congruence | lia].
Qed.

(** A step of the handler is accounted for. *)
Lemma onVoiceStateUpdate_accounted evt :
  stable accounted (onVoiceStateUpdate evt).
Proof.
  unfold onVoiceStateUpdate, dispatch, onJoin, onLeave, createTeam,
    deleteTemporaryCategory, h_s_Channel, h_s_Channels, h_s_CreateChannel,
    h_s_DeleteChannel, h_s_ModifyMember.
  stable_walk
    ltac:(first [ apply cloneChannel_accounted
                | apply deleteTemporaryChannel_accounted ])
    ltac:(intros;
          first [ apply accounted_call; [discriminate | discriminate | reflexivity]
                | apply accounted_silent; reflexivity ]).
Qed.

Lemma deliver_accounted (evts : list VoiceStateUpdateEvent) m :
  accounted m (deliver evts m).
Proof.
  revert m. induction evts as [|evt rest IH]; intros m; simpl.
  - reflexivity.
  - pose proof (onVoiceStateUpdate_accounted evt m) as Hstep.
    fold (handle evt m) in Hstep.
    destruct (panicked evt m); [exact Hstep|].
    transitivity (handle evt m); [exact Hstep | apply IH].
Qed.

(** In a run from a fresh handler every identifier occurs in
    [temporaryChannels] as often as it was handed over, less the times
    the leave branch tried to delete it. *)
Lemma tracker_balance (evts : list VoiceStateUpdateEvent) (s0 : W) (id : ChannelID) :
  let m := deliver evts (start s0) in
  (count_occ Z.eq_dec (temporaryChannels (self m)) id
   + count_occ Z.eq_dec (torn_down (trace m)) id
   = count_occ Z.eq_dec (provisioned (trace m)) id)%nat.
Proof.
  intros m. destruct (deliver_accounted evts (start s0)) as (new & Ht & _ & Hn).
  fold m in Ht, Hn. simpl in Ht. rewrite Ht. exact (Hn id).
Qed.
End Tracker.

#[global] Instance keeps_category_pre {W : Type} (id : ChannelID) :
  PreOrder (@keeps_category W id).
Proof.
  split.
  - intros m Hin. exact Hin.
  - intros m1 m2 m3 H12 H23 Hin. exact (H23 (H12 Hin)).
Qed.

(** ** Leaving a temporary channel *)

Section Leave.
Context {W : Type} `{!State W}.
Implicit Types (evt : VoiceStateUpdateEvent) (m : machine W).

(** On a leave only lines 160 to 196 run. *)
Lemma handle_leave evt m (member : Member) :
  leaves (before_of evt m) evt = true →
  evt_Member evt = Some member →
  handle evt m = snd (onLeave (before_of evt m) (written evt m)).
Proof.
  intros Hleave Hmember. unfold handle.
  rewrite onVoiceStateUpdate_dispatch. unfold dispatch.
  rewrite Hmember. fold (joins (before_of evt m) evt).
  fold (leaves (before_of evt m) evt). rewrite Hleave.
  unfold leaves in Hleave. apply andb_true_iff in Hleave as [Hb _].
  assert (joins (before_of evt m) evt = false) as ->.
  { unfold joins. rewrite Snowflake_String_empty, Hb. reflexivity. }
  unfold deref. cbv [mbind M_bind when mret M_ret]. reflexivity.
Qed.

Lemma deleteTemporaryChannel_keeps_category (id : ChannelID)
    (beforeChannel : Channel) :
  stable (keeps_category id) (deleteTemporaryChannel beforeChannel).
Proof.
  unfold deleteTemporaryChannel, h_s_DeleteChannel.
  stable_walk fail
    ltac:(intros; unfold keeps_category, unmarkChannel; simpl_machine;
          intros; assumption).
Qed.

(** Line 194 removes the parent's identifier, so every other
    identifier stays in [temporaryCategories]. *)
Lemma deleteTemporaryCategory_keeps_category (id : ChannelID)
    (beforeChannel : Channel) :
  Channel_ParentID beforeChannel ≠ id →
  stable (keeps_category id) (deleteTemporaryCategory beforeChannel).
Proof.
  intros Hparent.
  unfold deleteTemporaryCategory, h_s_Channel, h_s_Channels, h_s_DeleteChannel.
  stable_walk fail
    ltac:(intros; unfold keeps_category, unmarkCategory; simpl_machine;
          intros;
          first [ assumption
                | apply In_remove_other; [congruence | assumption] ]).
Qed.

(** The leave that tears a team down leaves the identifier of the
    team's voice channel in [temporaryCategories], whatever the session
    answers. *)
Lemma team_teardown_keeps_tracking evt m (member : Member)
    (beforeChannel : Channel) (w1 : W) :
  leaves (before_of evt m) evt = true →
  evt_Member evt = Some member →
  State_Channel (VoiceState_ChannelID (before_of evt m)) (s (self m))
    = (Ok beforeChannel, w1) →
  Channel_ParentID beforeChannel ≠ Channel_ID beforeChannel →
  In (Channel_ID beforeChannel) (temporaryCategories (self m)) →
  In (Channel_ID beforeChannel) (temporaryCategories (self (handle evt m))).
Proof.
  intros Hleave Hmember Hfetch Hparent Htracked.
  rewrite (handle_leave evt m member Hleave Hmember).
  unfold onLeave, written. run. rewrite Hfetch. simpl_machine.
  match goal with
  | |- In _ (temporaryCategories (self (snd (match ?c ?m0 with _ => _ end)))) =>
      pose proof (deleteTemporaryChannel_keeps_category
                    (Channel_ID beforeChannel) beforeChannel m0) as H1;
      destruct (c m0) as [[[]| |] m1]; simpl in H1 |- *;
      try exact (H1 Htracked)
  end.
  apply (deleteTemporaryCategory_keeps_category _ beforeChannel Hparent m1).
  exact (H1 Htracked).
Qed.
End Leave.

(** ** The trackers *)

Section Trackers.
Context {W : Type} `{!State W}.

(** C2, as the code has it.  In a run of notifications from a fresh
    handler in which no identifier is handed over twice, an identifier
    is in [temporaryChannels] exactly when a [CreateChannel] call of the
    clone branch returned it and the [ModifyMember] call that followed
    succeeded, and no [DeleteChannel] call of the leave branch has been
    made for it since, whether that call succeeded or failed. *)
Theorem tracked_iff_handed_over_not_torn_down
    (evts : list VoiceStateUpdateEvent) (s0 : W) (id : ChannelID) :
  let m := deliver evts (start s0) in
  List.NoDup (provisioned (trace m)) →
  In id (temporaryChannels (self m))
  ↔ In id (provisioned (trace m)) ∧ ¬ In id (torn_down (trace m)).
Proof.
  intros m Hfresh. pose proof (tracker_balance evts s0 id) as Hbalance.
  fold m in Hbalance. cbv zeta in Hbalance.
  pose proof (proj1 (NoDup_count_occ Z.eq_dec _) Hfresh id) as Honce.
  rewrite (count_occ_In Z.eq_dec), (count_occ_In Z.eq_dec),
    (count_occ_not_In Z.eq_dec).
  lia.
Qed.

(** C9, as the code has it.  Marking an identifier that a tracker
    already holds leaves the membership of that tracker as it was and
    appends one more entry for the identifier: [markChannel] and
    [markCategory] are a plain [append].  Each of the two statements
    needs the identifier in its own tracker only. *)
Theorem mark_again_appends_duplicate (id : ChannelID) (h : handler W) :
  (In id (temporaryChannels h) →
   (∀ x, In x (temporaryChannels (markChannel id h)) ↔ In x (temporaryChannels h))
   ∧ count_occ Z.eq_dec (temporaryChannels (markChannel id h)) id
     = S (count_occ Z.eq_dec (temporaryChannels h) id))
  ∧ (In id (temporaryCategories h) →
     (∀ x, In x (temporaryCategories (markCategory id h))
           ↔ In x (temporaryCategories h))
     ∧ count_occ Z.eq_dec (temporaryCategories (markCategory id h)) id
       = S (count_occ Z.eq_dec (temporaryCategories h) id)).
Proof.
  unfold markChannel, markCategory. simpl_machine.
  split; intros Hin; (split;
    [ intros x; rewrite in_app_iff; simpl; intuition congruence
    | rewrite count_occ_app; simpl; destruct (Z.eq_dec _ _); [lia | congruence] ]).
Qed.
End Trackers.

(** ** Runs in the guild in memory *)

Lemma clone_trigger_provisions_witness :
  calls (nari_in 11) (start discordia) =
    [ (AfterChannelFetch,
       GetChannel 11 (Ok (mkChannel 11 1 GuildVoice cloneTrigger 10 [])));
      (CloneCreate,
       CreateChannel 1 (mkCreateChannelData "nari's room" GuildVoice 10)
         (Ok (mkChannel 100 1 GuildVoice "nari's room" 10 [])));
      (CloneMove, MoveMember 1 7 (mkModifyMemberData 100) (Ok tt)) ]
  ∧ count_calls is_CreateChannel (calls (nari_in 11) (start discordia)) = 1%nat
  ∧ count_calls is_MoveMember (calls (nari_in 11) (start discordia)) = 1%nat
  ∧ temporaryChannels (self (handle (nari_in 11) (start discordia))) = [100].
Proof.
  exact (clone_trigger_provisions (nari_in 11) (start discordia) nari
           (mkChannel 11 1 GuildVoice cloneTrigger 10 []) discordia
           eq_refl eq_refl eq_refl eq_refl eq_refl).
Defined.

Lemma teams_trigger_provisions_witness :
  calls (nari_in 12) (start discordia) =
    [ (AfterChannelFetch,
       GetChannel 12 (Ok (mkChannel 12 1 GuildVoice teamsTrigger 10 [])));
      (TeamsCategory,
       CreateChannel 1 (mkCreateChannelData "nari's room" GuildCategory 0)
         (Ok (mkChannel 100 1 GuildCategory "nari's room" 0 [])));
      (TeamsText,
       CreateChannel 1 (mkCreateChannelData "text" GuildText 100)
         (Ok (mkChannel 101 1 GuildText "text" 100 [])));
      (TeamsVoice,
       CreateChannel 1 (mkCreateChannelData "voice" GuildVoice 100)
         (Ok (mkChannel 102 1 GuildVoice "voice" 100 [])));
      (TeamsMove, MoveMember 1 7 (mkModifyMemberData 102) (Ok tt)) ]
  ∧ temporaryCategories (self (handle (nari_in 12) (start discordia))) = [102]
  ∧ temporaryChannels (self (handle (nari_in 12) (start discordia))) = [].
Proof.
  exact (teams_trigger_provisions (nari_in 12) (start discordia) nari
           (mkChannel 12 1 GuildVoice teamsTrigger 10 []) discordia
           eq_refl eq_refl eq_refl eq_refl eq_refl).
Defined.

Lemma clone_failure_registers_nothing_witness :
  (count_calls is_MoveMember (calls (nari_in 11) (start no_creating)) = 0%nat
   ∧ temporaryChannels (self (handle (nari_in 11) (start no_creating))) = [])
  ∧ temporaryChannels (self (handle (nari_in 11) (start no_moving))) = [].
Proof.
  split.
  - exact (proj1 (clone_failure_registers_nothing (nari_in 11) (start no_creating)
                    nari (mkChannel 11 1 GuildVoice cloneTrigger 10 []) no_creating
                    eq_refl eq_refl eq_refl eq_refl eq_refl)
             "Missing Permissions" eq_refl).
  - exact (proj2 (clone_failure_registers_nothing (nari_in 11) (start no_moving)
                    nari (mkChannel 11 1 GuildVoice cloneTrigger 10 []) no_moving
                    eq_refl eq_refl eq_refl eq_refl eq_refl)
             (mkChannel 100 1 GuildVoice "nari's room" 10 [])
             "Missing Permissions" eq_refl eq_refl).
Defined.

(** nari moves out of the temporary channel 100 into channel 13. *)
Lemma move_or_noop_only_overwrites_witness :
  let m := deliver [nari_in 11; nari_in 100] (start discordia) in
  calls (nari_in 13) m = []
  ∧ trace (handle (nari_in 13) m) = trace m
  ∧ self (handle (nari_in 13) m) =
      mkHandler (s (self m))
        (<[evt_UserID (nari_in 13) := evt_VoiceState (nari_in 13)]>
           (userVoiceStates (self m)))
        (temporaryChannels (self m)) (temporaryCategories (self m)).
Proof.
  apply (move_or_noop_only_overwrites (nari_in 13)
           (deliver [nari_in 11; nari_in 100] (start discordia))).
  left. vm_compute. repeat split; discriminate.
Defined.

(** mio sits in channel 13 while nari joins the clone trigger. *)
Lemma registry_other_users_untouched_witness :
  let m := deliver [mio_in 13] (start discordia) in
  userVoiceStates (self (handle (nari_in 11) m)) !! 8 = userVoiceStates (self m) !! 8.
Proof.
  apply (registry_other_users_untouched (nari_in 11)
           (deliver [mio_in 13] (start discordia)) 8).
  vm_compute. discriminate.
Defined.

(** nari and mio each get a room; nari leaves, and mio's room 101 is the
    one still tracked. *)
Lemma tracked_iff_handed_over_not_torn_down_witness :
  let m := deliver [nari_in 11; nari_in 100; mio_in 11; mio_in 101; nari_in 0]
             (start discordia) in
  In 101 (temporaryChannels (self m))
  ↔ In 101 (provisioned (trace m)) ∧ ¬ In 101 (torn_down (trace m)).
Proof.
  apply (tracked_iff_handed_over_not_torn_down
           [nari_in 11; nari_in 100; mio_in 11; mio_in 101; nari_in 0] discordia 101).
  vm_compute. repeat constructor; simpl; intuition discriminate.
Defined.

(** C2, as the specification has it, fails on two runs.  In a guild that
    refuses deletions, nari's room 100 is created, handed over and left:
    the [DeleteChannel] call fails and line 172 removes 100 from
    [temporaryChannels] all the same.  In a guild that refuses moves,
    [CreateChannel] returns room 100, the move fails, and 100 is never
    tracked. *)
Lemma failed_call_breaks_tracking_invariant :
  ¬ tracks_created_not_deleted
      (deliver [nari_in 11; nari_in 100; nari_in 0] (start no_deleting))
  ∧ ¬ tracks_created_not_deleted (deliver [nari_in 11] (start no_moving)).
Proof.
  split; intros Hinv; destruct (Hinv 100) as [_ Hback];
    vm_compute in Hback; apply Hback; (split; [left; reflexivity | intros []]).
Qed.

(** C3 on a run.  nari joins the teams trigger and is moved to the voice
    channel 102 of the new team (category 100, text channel 101); the
    tracker holds 102.  nari then leaves: every deletion succeeds and the
    guild is back to its lobby, yet [temporaryCategories] still holds 102,
    because line 194 removes the category's identifier 100, which the
    slice never held. *)
Theorem team_teardown_leaves_voice_channel_tracked :
  let m := deliver [nari_in 12; nari_in 102] (start discordia) in
  temporaryCategories (self m) = [102]
  ∧ List.filter (λ e, is_DeleteChannel (snd e)) (calls (nari_in 0) m) =
      [ (CategoryChildDelete, DeleteChannel 101 "cleaning up" (Ok tt));
        (CategoryChildDelete, DeleteChannel 102 "cleaning up" (Ok tt));
        (CategoryDelete, DeleteChannel 100 "cleaning up" (Ok tt)) ]
  ∧ guild_channels (s (self (handle (nari_in 0) m))) = lobby
  ∧ temporaryCategories (self (handle (nari_in 0) m)) = [102].
Proof. vm_compute. repeat split; reflexivity. Qed.

(** C9, as the specification has it, fails for a tracker that holds 5
    once: marking 5 again gives a slice that holds it twice. *)
Lemma mark_again_is_not_idempotent :
  ¬ mark_is_idempotent (@markChannel guild) temporaryChannels
  ∧ ¬ mark_is_idempotent (@markCategory guild) temporaryCategories.
Proof.
  split; intros Hidem;
    destruct (Hidem 5 (mkHandler discordia ∅ [5] [5]) (or_introl eq_refl))
      as [_ Hnodup];
    assert (List.NoDup [5]) as Honce
      by (constructor; [intros [] | constructor]);
    specialize (Hnodup Honce); inversion Hnodup as [|x l Hnotin _];
    apply Hnotin; left; reflexivity.
Qed.

Lemma mark_again_appends_duplicate_witness :
  let h := mkHandler discordia ∅ [5] [] in
  let g := mkHandler discordia ∅ [] [6] in
  ((∀ x, In x (temporaryChannels (markChannel 5 h)) ↔ In x (temporaryChannels h))
   ∧ count_occ Z.eq_dec (temporaryChannels (markChannel 5 h)) 5
     = S (count_occ Z.eq_dec (temporaryChannels h) 5))
  ∧ ((∀ x, In x (temporaryCategories (markCategory 6 g))
           ↔ In x (temporaryCategories g))
     ∧ count_occ Z.eq_dec (temporaryCategories (markCategory 6 g)) 6
       = S (count_occ Z.eq_dec (temporaryCategories g) 6)).
Proof.
  split.
  - apply (proj1 (mark_again_appends_duplicate 5 (mkHandler discordia ∅ [5] []))).
    simpl. auto.
  - apply (proj2 (mark_again_appends_duplicate 6 (mkHandler discordia ∅ [] [6]))).
    simpl. auto.
Defined.

(* ================================================================== *)
(** * Further properties of the code *)

(** ** [contains] and [remove] *)

(** X1. [contains] answers [true] exactly for the elements of the slice;
    in particular it answers [false] on the empty slice. *)
Theorem contains_iff_member (slice : list ChannelID) (elem : ChannelID) :
  contains slice elem = true ↔ In elem slice.
Proof. apply contains_In. Qed.

(** X2. [remove] takes out the first occurrence of the element and keeps
    everything else in order: when [elem] does not occur in [front],
    removing it from [front ++ elem :: back] gives [front ++ back]. *)
Theorem remove_first_occurrence (front back : list ChannelID) (elem : ChannelID) :
  ¬ In elem front →
  remove (front ++ elem :: back) elem = front ++ back.
Proof.
  intros Hfront. induction front as [|item front IH]; simpl.
  - rewrite remove_cons, Z.eqb_refl. reflexivity.
  - rewrite remove_cons. destruct (Z.eqb_spec item elem) as [->|Hne].
    + exfalso. apply Hfront. left. reflexivity.
    + rewrite IH; [reflexivity|]. intros Hin. apply Hfront. right. exact Hin.
Qed.

Lemma remove_first_occurrence_witness :
  remove ([4; 6] ++ 5 :: [7; 5]) 5 = [4; 6] ++ [7; 5].
Proof.
  apply (remove_first_occurrence [4; 6] [7; 5] 5).
  simpl. intuition discriminate.
Defined.

(** X3. Removing an element that the slice does not hold leaves the
    slice as it is. *)
Theorem remove_absent (slice : list ChannelID) (elem : ChannelID) :
  ¬ In elem slice → remove slice elem = slice.
Proof.
  intros Habsent. induction slice as [|item rest IH].
  - reflexivity.
  - rewrite remove_cons. destruct (Z.eqb_spec item elem) as [->|Hne].
    + exfalso. apply Habsent. left. reflexivity.
    + rewrite IH; [reflexivity|]. intros Hin. apply Habsent. right. exact Hin.
Qed.

Lemma remove_absent_witness : remove [4; 6] 5 = [4; 6].
Proof. apply (remove_absent [4; 6] 5). simpl. intuition discriminate. Defined.

(** X4. [remove] drops one occurrence only: the slice still contains the
    element afterwards exactly when it held the element at least twice. *)
Theorem remove_leaves_duplicates (slice : list ChannelID) (elem : ChannelID) :
  contains (remove slice elem) elem = true
  ↔ (2 ≤ count_occ Z.eq_dec slice elem)%nat.
Proof.
  rewrite contains_In, (count_occ_In Z.eq_dec), count_occ_remove.
  case_decide; [lia | congruence].
Qed.

(** ** The paths of a leave *)

Section LeavePaths.
Context {W : Type} `{!State W}.
Implicit Types (evt : VoiceStateUpdateEvent) (m : machine W).

(** What is left to run on a leave once line 160 has its channel. *)
Lemma leave_after_fetch evt m (member : Member) (beforeChannel : Channel) (w1 : W) :
  leaves (before_of evt m) evt = true →
  evt_Member evt = Some member →
  State_Channel (VoiceState_ChannelID (before_of evt m)) (s (self m))
    = (Ok beforeChannel, w1) →
  handle evt m =
  snd ((deleteTemporaryChannel beforeChannel;; deleteTemporaryCategory beforeChannel)
         (mkMachine (set_s w1 (self (written evt m)))
            (trace m ++ [(BeforeChannelFetch,
                          GetChannel (VoiceState_ChannelID (before_of evt m))
                            (Ok beforeChannel))]))).
Proof.
  intros Hleave Hmember Hfetch.
  rewrite (handle_leave evt m member Hleave Hmember).
  unfold onLeave, written. run. rewrite Hfetch. simpl_machine. reflexivity.
Qed.

(** X5. When the user leaves voice and the channel left is in
    [temporaryChannels] and has no DM recipients, the handler makes
    exactly one [DeleteChannel] call, for that channel, and takes its
    first occurrence out of [temporaryChannels] whether the call
    succeeded or failed.  (The channel is not the voice channel of a
    team, so that lines 178 to 195 do not run.) *)
Theorem leave_deletes_temporary_channel evt m (member : Member)
    (beforeChannel : Channel) (w1 : W) :
  leaves (before_of evt m) evt = true →
  evt_Member evt = Some member →
  State_Channel (VoiceState_ChannelID (before_of evt m)) (s (self m))
    = (Ok beforeChannel, w1) →
  contains (temporaryChannels (self m)) (Channel_ID beforeChannel) = true →
  Channel_DMRecipients beforeChannel = [] →
  negb (Channel_ParentID beforeChannel =? 0)
    && contains (temporaryCategories (self m)) (Channel_ID beforeChannel) = false →
  let deleted := State_DeleteChannel (Channel_ID beforeChannel) "cleaning up" w1 in
  calls evt m =
    [ (BeforeChannelFetch,
       GetChannel (VoiceState_ChannelID (before_of evt m)) (Ok beforeChannel));
      (LeaveDelete,
       DeleteChannel (Channel_ID beforeChannel) "cleaning up" (fst deleted)) ]
  ∧ temporaryChannels (self (handle evt m))
    = remove (temporaryChannels (self m)) (Channel_ID beforeChannel)
  ∧ temporaryCategories (self (handle evt m)) = temporaryCategories (self m)
  ∧ s (self (handle evt m)) = snd deleted.
Proof.
  intros Hleave Hmember Hfetch Htracked Hempty Hteam. cbv zeta.
  unfold calls. rewrite (leave_after_fetch evt m member beforeChannel w1
                           Hleave Hmember Hfetch).
  unfold deleteTemporaryChannel, deleteTemporaryCategory, written. run.
  rewrite Htracked, Hempty. cbn [length Nat.eqb]. simpl_machine.
  destruct (State_DeleteChannel _ _ w1) as [r w2]. simpl_machine.
  unfold unmarkChannel. simpl_machine. rewrite Hteam. simpl_machine.
  rewrite <- app_assoc, drop_app_length. auto.
Qed.

(** X6. When the channel left still has DM recipients, the handler
    deletes nothing and both trackers stay as they are, whether or not
    the channel is tracked. *)
Theorem leave_with_recipients_deletes_nothing evt m (member : Member)
    (beforeChannel : Channel) (w1 : W) :
  leaves (before_of evt m) evt = true →
  evt_Member evt = Some member →
  State_Channel (VoiceState_ChannelID (before_of evt m)) (s (self m))
    = (Ok beforeChannel, w1) →
  Channel_DMRecipients beforeChannel ≠ [] →
  count_calls is_DeleteChannel (calls evt m) = 0%nat
  ∧ temporaryChannels (self (handle evt m)) = temporaryChannels (self m)
  ∧ temporaryCategories (self (handle evt m)) = temporaryCategories (self m).
Proof.
  intros Hleave Hmember Hfetch Hrecipients.
  assert ((length (Channel_DMRecipients beforeChannel) =? 0)%nat = false) as Hlen.
  { destruct (Channel_DMRecipients beforeChannel); [congruence | reflexivity]. }
  unfold calls. rewrite (leave_after_fetch evt m member beforeChannel w1
                           Hleave Hmember Hfetch).
  unfold deleteTemporaryChannel, deleteTemporaryCategory, written. run.
  rewrite Hlen. destruct (contains _ _); simpl_machine;
    (destruct (negb _ && contains _ _); simpl_machine;
     [ destruct (State_Channel _ w1) as [[category|e] w2]; simpl_machine;
       rewrite <- app_assoc, drop_app_length; auto
     | rewrite drop_app_length; auto ]).
Qed.

(** X7. When the channel left is in neither tracker (for
    [temporaryCategories]: or has no parent), the handler only fetches
    it: no other call, and both trackers stay as they are. *)
Theorem leave_of_untracked_channel evt m (member : Member)
    (beforeChannel : Channel) (w1 : W) :
  leaves (before_of evt m) evt = true →
  evt_Member evt = Some member →
  State_Channel (VoiceState_ChannelID (before_of evt m)) (s (self m))
    = (Ok beforeChannel, w1) →
  contains (temporaryChannels (self m)) (Channel_ID beforeChannel) = false →
  negb (Channel_ParentID beforeChannel =? 0)
    && contains (temporaryCategories (self m)) (Channel_ID beforeChannel) = false →
  calls evt m =
    [ (BeforeChannelFetch,
       GetChannel (VoiceState_ChannelID (before_of evt m)) (Ok beforeChannel)) ]
  ∧ temporaryChannels (self (handle evt m)) = temporaryChannels (self m)
  ∧ temporaryCategories (self (handle evt m)) = temporaryCategories (self m).
Proof.
  intros Hleave Hmember Hfetch Hchannel Hteam.
  unfold calls. rewrite (leave_after_fetch evt m member beforeChannel w1
                           Hleave Hmember Hfetch).
  unfold deleteTemporaryChannel, deleteTemporaryCategory, written. run.
  rewrite Hchannel. simpl_machine. rewrite Hteam. simpl_machine.
  rewrite drop_app_length. auto.
Qed.

(** X8. When the fetch of the channel left fails, the handler stops
    there: that fetch is its only call and both trackers stay as they
    are, also for a tracked channel. *)
Theorem leave_fetch_failure_aborts evt m (member : Member) (e : error) (w1 : W) :
  leaves (before_of evt m) evt = true →
  evt_Member evt = Some member →
  State_Channel (VoiceState_ChannelID (before_of evt m)) (s (self m))
    = (Err e, w1) →
  calls evt m =
    [ (BeforeChannelFetch,
       GetChannel (VoiceState_ChannelID (before_of evt m)) (Err e)) ]
  ∧ temporaryChannels (self (handle evt m)) = temporaryChannels (self m)
  ∧ temporaryCategories (self (handle evt m)) = temporaryCategories (self m).
Proof.
  intros Hleave Hmember Hfetch. unfold calls.
  rewrite (handle_leave evt m member Hleave Hmember).
  unfold onLeave, written. run. rewrite Hfetch. simpl_machine.
  rewrite drop_app_length. auto.
Qed.

(** One round of the loop of lines 185 to 189 for a child. *)
Lemma delete_child_step (id : ChannelID) m :
  (h_s_DeleteChannel CategoryChildDelete id "cleaning up";; mret tt) m
  = (Next tt,
     mkMachine (set_s (snd (State_DeleteChannel id "cleaning up" (s (self m)))) (self m))
       (trace m ++ [(CategoryChildDelete,
                     DeleteChannel id "cleaning up"
                       (fst (State_DeleteChannel id "cleaning up" (s (self m)))))])).
Proof.
  run. destruct (State_DeleteChannel _ _ (s (self m))) as [r w1]. reflexivity.
Qed.

(** The loop of lines 185 to 189: one [DeleteChannel] call for every
    channel of the listing whose parent is the category, in the order of
    the listing, and none of the answers stops the loop. *)
Lemma delete_children_run (categoryID : ChannelID) (channels : list Channel) m :
  ∃ children w,
    for_range channels (λ channel,
      when (Channel_ParentID channel =? categoryID) (
        h_s_DeleteChannel CategoryChildDelete (Channel_ID channel) "cleaning up";;
        mret tt)) m
    = (Next tt, mkMachine (set_s w (self m)) (trace m ++ children))
    ∧ Forall2 deletes_child children (children_of categoryID channels).
Proof.
  revert m. induction channels as [|channel rest IH]; intros m.
  - exists [], (s (self m)). split; [|constructor].
    destruct m as [[w r c g] t]. simpl. rewrite app_nil_r. reflexivity.
  - cbn [for_range children_of List.filter].
    fold (children_of categoryID rest).
    unfold mbind at 1. unfold M_bind at 1.
    destruct (Channel_ParentID channel =? categoryID); cbn [when].
    + rewrite delete_child_step.
      match goal with
      | |- context [for_range rest _ ?m1] =>
          destruct (IH m1) as (children & w & Hrun & Hall)
      end.
      rewrite Hrun. simpl_machine.
      eexists (_ :: children), w. split.
      * rewrite <- app_assoc. reflexivity.
      * constructor; [eexists; reflexivity | exact Hall].
    + unfold mret at 1. unfold M_ret at 1. apply IH.
Qed.

(** X9. When the user leaves the voice channel of a team (the channel
    has a parent, is in [temporaryCategories] and has no DM recipients)
    and the fetch of the parent and the listing of its guild succeed, the
    handler makes one [DeleteChannel] call for every listed channel whose
    parent is the category, in the order of the listing and whatever the
    earlier ones answered, then one for the category itself, and calls
    [remove] on [temporaryCategories] with the identifier of the parent. *)
Theorem leave_tears_team_down evt m (member : Member)
    (beforeChannel category : Channel) (channels : list Channel) (w1 w2 w3 : W) :
  leaves (before_of evt m) evt = true →
  evt_Member evt = Some member →
  State_Channel (VoiceState_ChannelID (before_of evt m)) (s (self m))
    = (Ok beforeChannel, w1) →
  contains (temporaryChannels (self m)) (Channel_ID beforeChannel) = false →
  negb (Channel_ParentID beforeChannel =? 0)
    && contains (temporaryCategories (self m)) (Channel_ID beforeChannel) = true →
  Channel_DMRecipients beforeChannel = [] →
  State_Channel (Channel_ParentID beforeChannel) w1 = (Ok category, w2) →
  State_Channels (Channel_GuildID category) w2 = (Ok channels, w3) →
  ∃ children r,
    calls evt m =
      [ (BeforeChannelFetch,
         GetChannel (VoiceState_ChannelID (before_of evt m)) (Ok beforeChannel));
        (CategoryFetch, GetChannel (Channel_ParentID beforeChannel) (Ok category));
        (CategoryList, ListChannels (Channel_GuildID category) (Ok channels)) ]
      ++ children
      ++ [ (CategoryDelete, DeleteChannel (Channel_ID category) "cleaning up" r) ]
    ∧ Forall2 deletes_child children
        (children_of (Channel_ParentID beforeChannel) channels)
    ∧ temporaryCategories (self (handle evt m))
      = remove (temporaryCategories (self m)) (Channel_ParentID beforeChannel)
    ∧ temporaryChannels (self (handle evt m)) = temporaryChannels (self m).
Proof.
  intros Hleave Hmember Hfetch Hchannel Hteam Hempty Hcategory Hlist.
  unfold calls. rewrite (leave_after_fetch evt m member beforeChannel w1
                           Hleave Hmember Hfetch).
  unfold deleteTemporaryChannel, deleteTemporaryCategory, written. run.
  rewrite Hchannel. simpl_machine. rewrite Hteam. simpl_machine.
  rewrite Hcategory. simpl_machine. rewrite Hempty. cbn [length Nat.eqb].
  simpl_machine. rewrite Hlist. simpl_machine.
  match goal with
  | |- context [for_range channels ?body ?m3] =>
      destruct (delete_children_run (Channel_ParentID beforeChannel) channels m3)
        as (children & w4 & Hrun & Hall);
      match type of Hrun with
      | for_range _ ?source _ = _ =>
          change (for_range channels body m3) with (for_range channels source m3)
      end
  end.
  rewrite Hrun. simpl_machine.
  destruct (State_DeleteChannel _ _ w4) as [r w5]. simpl_machine.
  exists children, r. unfold unmarkCategory. simpl_machine.
  rewrite <- !app_assoc, drop_app_length. auto.
Qed.

(** The machine that lines 166 to 174 leave for line 176. *)
Lemma deleteTemporaryChannel_run (beforeChannel : Channel) m :
  deleteTemporaryChannel beforeChannel m =
  (Next tt,
   if standalone_teardown (self m) beforeChannel
   then
     mkMachine
       (unmarkChannel (Channel_ID beforeChannel)
          (set_s (snd (State_DeleteChannel (Channel_ID beforeChannel) "cleaning up"
                         (s (self m))))
             (self m)))
       (trace m ++ [(LeaveDelete,
                     DeleteChannel (Channel_ID beforeChannel) "cleaning up"
                       (fst (State_DeleteChannel (Channel_ID beforeChannel)
                               "cleaning up" (s (self m)))))])
   else m).
Proof.
  unfold deleteTemporaryChannel, standalone_teardown. run.
  destruct (contains _ _); [|reflexivity].
  destruct (length _ =? 0)%nat; [|reflexivity]. cbn [andb].
  destruct (State_DeleteChannel _ _ (s (self m))) as [r w2]. reflexivity.
Qed.

(** What is left to run on a leave once lines 160 to 174 are done. *)
Lemma leave_after_standalone evt m (member : Member) (beforeChannel : Channel)
    (w1 : W) :
  leaves (before_of evt m) evt = true →
  evt_Member evt = Some member →
  State_Channel (VoiceState_ChannelID (before_of evt m)) (s (self m))
    = (Ok beforeChannel, w1) →
  handle evt m =
  snd (deleteTemporaryCategory beforeChannel
         (let fetched :=
            mkMachine (set_s w1 (self (written evt m)))
              (trace m ++ [(BeforeChannelFetch,
                            GetChannel (VoiceState_ChannelID (before_of evt m))
                              (Ok beforeChannel))]) in
          if standalone_teardown (self m) beforeChannel
          then
            mkMachine
              (unmarkChannel (Channel_ID beforeChannel)
                 (set_s (snd (State_DeleteChannel (Channel_ID beforeChannel)
                                "cleaning up" w1))
                    (self fetched)))
              (trace fetched
               ++ [(LeaveDelete,
                    DeleteChannel (Channel_ID beforeChannel) "cleaning up"
                      (fst (State_DeleteChannel (Channel_ID beforeChannel)
                              "cleaning up" w1)))])
          else fetched)).
Proof.
  intros Hleave Hmember Hfetch.
  rewrite (leave_after_fetch evt m member beforeChannel w1 Hleave Hmember Hfetch).
  unfold mbind, M_bind. rewrite deleteTemporaryChannel_run. reflexivity.
Qed.

(** X10. When the user leaves the voice channel of a team (the channel
    has a parent and is in [temporaryCategories]) and the fetch of the
    parent fails, the team is left alone: no listing, no deletion of a
    child or of the category, and [temporaryCategories] stays as it is.
    The only other call is the [DeleteChannel] of line 168, made before
    the fetch exactly when the channel is also in [temporaryChannels] and
    has no DM recipients; [temporaryChannels] then loses the channel and
    is unchanged otherwise. *)
Theorem team_teardown_needs_category evt m (member : Member)
    (beforeChannel : Channel) (e : error) (w1 w2 : W) :
  leaves (before_of evt m) evt = true →
  evt_Member evt = Some member →
  State_Channel (VoiceState_ChannelID (before_of evt m)) (s (self m))
    = (Ok beforeChannel, w1) →
  negb (Channel_ParentID beforeChannel =? 0)
    && contains (temporaryCategories (self m)) (Channel_ID beforeChannel) = true →
  State_Channel (Channel_ParentID beforeChannel)
    (if standalone_teardown (self m) beforeChannel
     then snd (State_DeleteChannel (Channel_ID beforeChannel) "cleaning up" w1)
     else w1)
    = (Err e, w2) →
  calls evt m =
    [ (BeforeChannelFetch,
       GetChannel (VoiceState_ChannelID (before_of evt m)) (Ok beforeChannel)) ]
    ++ (if standalone_teardown (self m) beforeChannel
        then [ (LeaveDelete,
                DeleteChannel (Channel_ID beforeChannel) "cleaning up"
                  (fst (State_DeleteChannel (Channel_ID beforeChannel)
                          "cleaning up" w1))) ]
        else [])
    ++ [ (CategoryFetch, GetChannel (Channel_ParentID beforeChannel) (Err e)) ]
  ∧ temporaryCategories (self (handle evt m)) = temporaryCategories (self m)
  ∧ temporaryChannels (self (handle evt m))
    = (if standalone_teardown (self m) beforeChannel
       then remove (temporaryChannels (self m)) (Channel_ID beforeChannel)
       else temporaryChannels (self m)).
Proof.
  intros Hleave Hmember Hfetch Hteam Hcategory.
  unfold calls. rewrite (leave_after_standalone evt m member beforeChannel w1
                           Hleave Hmember Hfetch).
  cbv zeta. unfold written.
  destruct (standalone_teardown (self m) beforeChannel);
    unfold deleteTemporaryCategory, unmarkChannel; run;
    rewrite Hteam; simpl_machine; rewrite Hcategory; simpl_machine;
    rewrite <- ?app_assoc, drop_app_length; auto.
Qed.

(** X11. When the user leaves the voice channel of a team (the channel
    has a parent, is in [temporaryCategories] and has no DM recipients),
    the fetch of the parent succeeds and the listing of the guild fails,
    the handler returns before it deletes a child or the category, and
    [temporaryCategories] stays as it is.  The only other call is the
    [DeleteChannel] of line 168, made before the fetch of the parent
    exactly when the channel is also in [temporaryChannels];
    [temporaryChannels] then loses the channel and is unchanged
    otherwise. *)
Theorem team_teardown_needs_listing evt m (member : Member)
    (beforeChannel category : Channel) (e : error) (w1 w2 w3 : W) :
  leaves (before_of evt m) evt = true →
  evt_Member evt = Some member →
  State_Channel (VoiceState_ChannelID (before_of evt m)) (s (self m))
    = (Ok beforeChannel, w1) →
  negb (Channel_ParentID beforeChannel =? 0)
    && contains (temporaryCategories (self m)) (Channel_ID beforeChannel) = true →
  Channel_DMRecipients beforeChannel = [] →
  State_Channel (Channel_ParentID beforeChannel)
    (if standalone_teardown (self m) beforeChannel
     then snd (State_DeleteChannel (Channel_ID beforeChannel) "cleaning up" w1)
     else w1)
    = (Ok category, w2) →
  State_Channels (Channel_GuildID category) w2 = (Err e, w3) →
  calls evt m =
    [ (BeforeChannelFetch,
       GetChannel (VoiceState_ChannelID (before_of evt m)) (Ok beforeChannel)) ]
    ++ (if standalone_teardown (self m) beforeChannel
        then [ (LeaveDelete,
                DeleteChannel (Channel_ID beforeChannel) "cleaning up"
                  (fst (State_DeleteChannel (Channel_ID beforeChannel)
                          "cleaning up" w1))) ]
        else [])
    ++ [ (CategoryFetch, GetChannel (Channel_ParentID beforeChannel) (Ok category));
         (CategoryList, ListChannels (Channel_GuildID category) (Err e)) ]
  ∧ temporaryCategories (self (handle evt m)) = temporaryCategories (self m)
  ∧ temporaryChannels (self (handle evt m))
    = (if standalone_teardown (self m) beforeChannel
       then remove (temporaryChannels (self m)) (Channel_ID beforeChannel)
       else temporaryChannels (self m)).
Proof.
  intros Hleave Hmember Hfetch Hteam Hempty Hcategory Hlist.
  unfold calls. rewrite (leave_after_standalone evt m member beforeChannel w1
                           Hleave Hmember Hfetch).
  cbv zeta. unfold written.
  destruct (standalone_teardown (self m) beforeChannel);
    unfold deleteTemporaryCategory, unmarkChannel; run;
    rewrite Hteam; simpl_machine; rewrite Hcategory; simpl_machine;
    rewrite Hempty; cbn [length Nat.eqb]; simpl_machine;
    rewrite Hlist; simpl_machine;
    rewrite <- ?app_assoc, drop_app_length; auto.
Qed.
End LeavePaths.

(** ** The other paths of a join *)

Section JoinPaths.
Context {W : Type} `{!State W}.
Implicit Types (evt : VoiceStateUpdateEvent) (m : machine W).

(** X12. When the channel joined carries neither trigger name, the
    handler only fetches it: no channel is created, nobody is moved, and
    both trackers stay as they are. *)
Theorem join_of_ordinary_channel evt m (member : Member)
    (afterChannel : Channel) (w1 : W) :
  joins (before_of evt m) evt = true →
  evt_Member evt = Some member →
  State_Channel (evt_ChannelID evt) (s (self m)) = (Ok afterChannel, w1) →
  Channel_Name afterChannel ≠ cloneTrigger →
  Channel_Name afterChannel ≠ teamsTrigger →
  calls evt m =
    [ (AfterChannelFetch, GetChannel (evt_ChannelID evt) (Ok afterChannel)) ]
  ∧ temporaryChannels (self (handle evt m)) = temporaryChannels (self m)
  ∧ temporaryCategories (self (handle evt m)) = temporaryCategories (self m).
Proof.
  intros Hjoin Hmember Hfetch Hclone Hteams.
  apply String.eqb_neq in Hclone, Hteams.
  unfold calls. rewrite (handle_join evt m member Hjoin Hmember).
  unfold written. run. rewrite Hfetch. simpl_machine.
  rewrite Hclone, Hteams. simpl_machine. rewrite drop_app_length. auto.
Qed.

(** X13. When the fetch of the channel joined fails, the handler stops
    there: that fetch is its only call and both trackers stay as they
    are. *)
Theorem join_fetch_failure_aborts evt m (member : Member) (e : error) (w1 : W) :
  joins (before_of evt m) evt = true →
  evt_Member evt = Some member →
  State_Channel (evt_ChannelID evt) (s (self m)) = (Err e, w1) →
  calls evt m = [ (AfterChannelFetch, GetChannel (evt_ChannelID evt) (Err e)) ]
  ∧ temporaryChannels (self (handle evt m)) = temporaryChannels (self m)
  ∧ temporaryCategories (self (handle evt m)) = temporaryCategories (self m).
Proof.
  intros Hjoin Hmember Hfetch.
  unfold calls. rewrite (handle_join evt m member Hjoin Hmember).
  unfold written. run. rewrite Hfetch. simpl_machine.
  rewrite drop_app_length. auto.
Qed.
End JoinPaths.

(** ** Panics *)

Section Calm.
Context {W : Type} `{!State W}.

Lemma calm_ret {A : Type} (a : A) : calm (mret a : M W A).
Proof. intros m. discriminate. Qed.

Lemma calm_bind {A B : Type} (c : M W A) (f : A → M W B) :
  calm c → (∀ a, calm (f a)) → calm (c ≫= f).
Proof.
  intros Hc Hf m. unfold mbind, M_bind. specialize (Hc m).
  destruct (c m) as [[a| |] m']; simpl in *; [apply Hf | discriminate | congruence].
Qed.

Lemma calm_go_return {A : Type} : calm (@go_return W A).
Proof. intros m. discriminate. Qed.

Lemma calm_get_handler : calm (@get_handler W).
Proof. intros m. discriminate. Qed.

Lemma calm_modify (f : handler W → handler W) : calm (modify f).
Proof. intros m. discriminate. Qed.

Lemma calm_invoke {A : Type} (st : site) (f : W → result A * W)
    (mk : result A → call) :
  calm (invoke st f mk).
Proof. intros m. unfold invoke. destruct (f (s (self m))). discriminate. Qed.

Lemma calm_when (b : bool) (c : M W unit) : calm c → calm (when b c).
Proof. intros Hc. destruct b; [exact Hc | apply calm_ret]. Qed.

Lemma calm_for_range {A : Type} (l : list A) (body : A → M W unit) :
  (∀ x, calm (body x)) → calm (for_range l body).
Proof.
  intros Hbody. induction l as [|x rest IH]; simpl.
  - apply calm_ret.
  - apply calm_bind; [apply Hbody | intros _; exact IH].
Qed.

Lemma calm_or_return {A : Type} (c : M W (result A)) :
  calm c → calm (or_return c).
Proof.
  intros Hc. unfold or_return. apply calm_bind; [exact Hc|].
  intros [a|e]; [apply calm_ret | apply calm_go_return].
Qed.
End Calm.

Ltac calm_walk :=
  repeat first
    [ apply calm_ret | apply calm_go_return | apply calm_get_handler
    | apply calm_modify | apply calm_invoke | apply calm_when
    | apply calm_for_range | apply calm_or_return | apply calm_bind
    | progress cbv zeta
    | match goal with |- calm (match ?r with _ => _ end) => destruct r end
    | progress intros ].

Section Panics.
Context {W : Type} `{!State W}.
Implicit Types (evt : VoiceStateUpdateEvent) (m : machine W).

(** Nothing after line 82 can panic. *)
Lemma join_and_leave_calm evt (before : VoiceState) (possibleChannelName : string) :
  calm (when (String.eqb (Snowflake_String (VoiceState_ChannelID before)) ""
              && Snowflake_IsValid (evt_ChannelID evt))
          (onJoin evt before possibleChannelName);;
        when (Snowflake_IsValid (VoiceState_ChannelID before)
              && String.eqb (Snowflake_String (evt_ChannelID evt)) "")
          (onLeave before)).
Proof.
  unfold onJoin, onLeave, cloneChannel, createTeam, deleteTemporaryChannel,
    deleteTemporaryCategory, h_s_Channel, h_s_Channels, h_s_CreateChannel,
    h_s_DeleteChannel, h_s_ModifyMember.
  calm_walk.
Qed.

(** The handler panics exactly on a notification without member. *)
Lemma panicked_iff_no_member evt m :
  panicked evt m = true ↔ evt_Member evt = None.
Proof.
  unfold panicked. rewrite onVoiceStateUpdate_dispatch. unfold dispatch.
  destruct (evt_Member evt) as [member|].
  - unfold deref, mbind at 1, M_bind at 1.
    pose proof (join_and_leave_calm evt (before_of evt m)
                  (User_Username (Member_User member) +:+ "'s room")
                  (written evt m)) as Hcalm.
    cbv zeta.
    destruct (fst _); [split; discriminate | split; discriminate | congruence].
  - split; reflexivity.
Qed.

(** X14. The handler panics exactly when the notification carries no
    member (the nil pointer of line 82).  The panic comes after the
    registry write of line 80 and before any session call: the trackers
    and the world are untouched and the user's entry is overwritten. *)
Theorem panics_exactly_without_member evt m :
  (panicked evt m = true ↔ evt_Member evt = None)
  ∧ (evt_Member evt = None →
     calls evt m = []
     ∧ self (handle evt m) =
         mkHandler (s (self m))
           (<[evt_UserID evt := evt_VoiceState evt]> (userVoiceStates (self m)))
           (temporaryChannels (self m)) (temporaryCategories (self m))).
Proof.
  split; [apply panicked_iff_no_member|]. intros Hnil.
  assert (handle evt m = written evt m) as Hw.
  { unfold handle. rewrite onVoiceStateUpdate_dispatch. unfold dispatch.
    rewrite Hnil. reflexivity. }
  split; [exact (calls_written evt m Hw) | rewrite Hw; reflexivity].
Qed.

(** X15. Over a run of notifications that all carry their member, the
    registry is the result of the map stores of line 80 in the order of
    delivery: for every user it holds the membership of the user's last
    notification, whatever the session answered in between. *)
Theorem registry_is_last_seen (evts : list VoiceStateUpdateEvent) m :
  Forall (λ evt, evt_Member evt ≠ None) evts →
  userVoiceStates (self (deliver evts m))
  = recorded evts (userVoiceStates (self m)).
Proof.
  intros Hmembers. revert m.
  induction Hmembers as [|evt rest Hmember _ IH]; intros m; simpl.
  - reflexivity.
  - destruct (panicked evt m) eqn:Hpanic.
    + apply panicked_iff_no_member in Hpanic. congruence.
    + rewrite IH, handle_registry. reflexivity.
Qed.
End Panics.

(** ** When the handler calls the session *)

#[global] Instance grows_pre {W : Type} : PreOrder (@grows W).
Proof.
  split.
  - intros m. unfold grows. lia.
  - intros m1 m2 m3 H12 H23. unfold grows in *. lia.
Qed.

Section Dispatch.
Context {W : Type} `{!State W}.
Implicit Types (evt : VoiceStateUpdateEvent) (m : machine W).

(** A fetch whose failure returns, followed by statements that only
    append to the trace, leaves the trace longer than it was. *)
Lemma first_call_recorded {A : Type} (st : site) (f : W → result A * W)
    (mk : result A → call) (rest : A → M W unit) m :
  (∀ a, stable grows (rest a)) →
  (length (trace m)
   < length (trace (snd ((or_return (invoke st f mk) ≫= rest) m))))%nat.
Proof.
  intros Hrest. unfold or_return, invoke, mbind, M_bind, mret, M_ret, go_return.
  destruct (f (s (self m))) as [[a|e] w]; simpl.
  - match goal with
    | |- (_ < length (trace (snd (rest a ?m1))))%nat => specialize (Hrest a m1)
    end.
    unfold grows in Hrest. simpl in Hrest. rewrite length_app in Hrest.
    simpl in Hrest. lia.
  - rewrite length_app. simpl. lia.
Qed.

Lemma calls_of_longer_trace evt m :
  (length (trace m) < length (trace (handle evt m)))%nat → calls evt m ≠ [].
Proof.
  intros Hlonger Hnone. unfold calls in Hnone.
  apply (f_equal length) in Hnone. rewrite length_drop in Hnone.
  simpl in Hnone. lia.
Qed.

Lemma join_calls_session evt m (member : Member) :
  joins (before_of evt m) evt = true →
  evt_Member evt = Some member →
  calls evt m ≠ [].
Proof.
  intros Hjoin Hmember. apply calls_of_longer_trace.
  rewrite (handle_join evt m member Hjoin Hmember). cbv zeta.
  unfold h_s_Channel. apply (first_call_recorded _ _ _ _ (written evt m)).
  intros afterChannel.
  unfold cloneChannel, createTeam, h_s_CreateChannel, h_s_ModifyMember.
  stable_walk fail
    ltac:(intros; unfold grows; simpl_machine; rewrite ?length_app; lia).
Qed.

Lemma leave_calls_session evt m (member : Member) :
  leaves (before_of evt m) evt = true →
  evt_Member evt = Some member →
  calls evt m ≠ [].
Proof.
  intros Hleave Hmember. apply calls_of_longer_trace.
  rewrite (handle_leave evt m member Hleave Hmember).
  unfold onLeave, h_s_Channel.
  apply (first_call_recorded _ _ _ _ (written evt m)).
  intros beforeChannel.
  unfold deleteTemporaryChannel, deleteTemporaryCategory, h_s_Channel,
    h_s_Channels, h_s_DeleteChannel.
  stable_walk fail
    ltac:(intros; unfold grows; simpl_machine; rewrite ?length_app; lia).
Qed.

(** X16. For a notification that carries its member, the handler calls
    the session exactly when the user's previous and new channel differ
    in being valid: a join (none to valid) or a leave (valid to none).
    A move between two valid channels and a change between two values
    that both mean "none" call nothing. *)
Theorem calls_session_iff_join_or_leave evt m (member : Member) :
  evt_Member evt = Some member →
  calls evt m = []
  ↔ Snowflake_IsValid (VoiceState_ChannelID (before_of evt m))
    = Snowflake_IsValid (evt_ChannelID evt).
Proof.
  intros Hmember.
  destruct (Snowflake_IsValid (VoiceState_ChannelID (before_of evt m))) eqn:Hb,
    (Snowflake_IsValid (evt_ChannelID evt)) eqn:He.
  - split; [reflexivity | intros _]. apply calls_written. unfold handle.
    rewrite onVoiceStateUpdate_dispatch.
    apply dispatch_idle; rewrite Snowflake_String_empty, ?Hb, ?He; reflexivity.
  - split; [|discriminate]. intros Hnone. exfalso.
    apply (leave_calls_session evt m member); [|exact Hmember | exact Hnone].
    unfold leaves. rewrite Snowflake_String_empty, Hb, He. reflexivity.
  - split; [|discriminate]. intros Hnone. exfalso.
    apply (join_calls_session evt m member); [|exact Hmember | exact Hnone].
    unfold joins. rewrite Snowflake_String_empty, Hb, He. reflexivity.
  - split; [reflexivity | intros _]. apply calls_written. unfold handle.
    rewrite onVoiceStateUpdate_dispatch.
    apply dispatch_idle; rewrite Snowflake_String_empty, ?Hb, ?He; reflexivity.
Qed.
End Dispatch.

(** ** What the trackers hold over a run *)

Lemma In_remove_subset (slice : list ChannelID) (elem id : ChannelID) :
  In id (remove slice elem) → In id slice.
Proof.
  rewrite !(count_occ_In Z.eq_dec), count_occ_remove. case_decide; lia.
Qed.

#[global] Instance categories_accounted_pre {W : Type} :
  PreOrder (@categories_accounted W).
Proof.
  split.
  - intros m. exists []. rewrite app_nil_r. auto.
  - intros m1 m2 m3 (new1 & Ht1 & Hn1) (new2 & Ht2 & Hn2).
    exists (new1 ++ new2). split.
    + rewrite Ht2, Ht1, app_assoc. reflexivity.
    + intros id Hin. unfold team_voices in *. rewrite omap_app, in_app_iff.
      destruct (Hn2 id Hin) as [Hin2|Hnew2]; [|auto].
      destruct (Hn1 id Hin2); auto.
Qed.

Section Holdings.
Context {W : Type} `{!State W}.
Implicit Types (evt : VoiceStateUpdateEvent) (m : machine W).

(** X17. In a run from a fresh handler, [temporaryChannels] holds only
    channels that the clone branch created and handed over, and the
    [DeleteChannel] call of line 168 is only ever made for such a
    channel: that teardown never deletes a channel the bot did not
    create. *)
Theorem teardown_only_of_provisioned (evts : list VoiceStateUpdateEvent)
    (s0 : W) (id : ChannelID) :
  let m := deliver evts (start s0) in
  (In id (temporaryChannels (self m)) → In id (provisioned (trace m)))
  ∧ (In id (torn_down (trace m)) → In id (provisioned (trace m))).
Proof.
  intros m. pose proof (tracker_balance evts s0 id) as Hbalance.
  fold m in Hbalance. cbv zeta in Hbalance.
  rewrite !(count_occ_In Z.eq_dec). lia.
Qed.

(** A call, or a write that adds nothing to [temporaryCategories]. *)
Lemma categories_accounted_call m (h : handler W) (e : entry) :
  temporaryCategories h = temporaryCategories (self m) →
  categories_accounted m (mkMachine h (trace m ++ [e])).
Proof.
  intros Hsame. exists [e]. split; [reflexivity|]. simpl_machine.
  rewrite Hsame. auto.
Qed.

Lemma categories_accounted_silent m (h : handler W) :
  (∀ id, In id (temporaryCategories h) → In id (temporaryCategories (self m))) →
  categories_accounted m (mkMachine h (trace m)).
Proof.
  intros Hsub. exists []. rewrite app_nil_r. split; [reflexivity|].
  simpl_machine. auto.
Qed.

(** Lines 116 to 153 taken together. *)
Lemma createTeam_categories_accounted evt (possibleChannelName : string)
    (afterChannel : Channel) :
  stable categories_accounted (createTeam evt possibleChannelName afterChannel).
Proof.
  intros m. unfold createTeam. run.
  destruct (State_CreateChannel _ _ (s (self m))) as [[category|e] w2];
    simpl_machine; [|apply categories_accounted_call; reflexivity].
  destruct (State_CreateChannel _ _ w2) as [[text|e] w3]; simpl_machine;
    [|eexists; split; [rewrite <- !app_assoc; reflexivity | simpl_machine; auto]].
  destruct (State_CreateChannel _ _ w3) as [[tempChannel|e] w4]; simpl_machine;
    [|eexists; split; [rewrite <- !app_assoc; reflexivity | simpl_machine; auto]].
  destruct (State_ModifyMember _ _ _ w4) as [[[]|e] w5]; simpl_machine;
    (eexists; split; [rewrite <- !app_assoc; reflexivity|]);
    unfold markCategory; simpl_machine; [|auto].
  intros id Hin. apply in_app_iff in Hin as [Hold|Hnew]; [auto|]. right. exact Hnew.
Qed.

Lemma onVoiceStateUpdate_categories_accounted evt :
  stable categories_accounted (onVoiceStateUpdate evt).
Proof.
  unfold onVoiceStateUpdate, dispatch, onJoin, onLeave, cloneChannel,
    deleteTemporaryChannel, deleteTemporaryCategory, h_s_Channel, h_s_Channels,
    h_s_CreateChannel, h_s_DeleteChannel, h_s_ModifyMember.
  stable_walk
    ltac:(apply createTeam_categories_accounted)
    ltac:(intros;
          first [ apply categories_accounted_call; reflexivity
                | apply categories_accounted_silent;
                  unfold unmarkCategory, unmarkChannel, markChannel;
                  simpl_machine; intros id Hin;
                  first [ exact Hin | exact (In_remove_subset _ _ _ Hin) ] ]).
Qed.

Lemma deliver_categories_accounted (evts : list VoiceStateUpdateEvent) m :
  categories_accounted m (deliver evts m).
Proof.
  revert m. induction evts as [|evt rest IH]; intros m; simpl.
  - reflexivity.
  - pose proof (onVoiceStateUpdate_categories_accounted evt m) as Hstep.
    fold (handle evt m) in Hstep.
    destruct (panicked evt m); [exact Hstep|].
    transitivity (handle evt m); [exact Hstep | apply IH].
Qed.

(** X18. In a run from a fresh handler, every identifier in
    [temporaryCategories] is a voice channel into which a [ModifyMember]
    call of the teams branch moved a user with success. *)
Theorem categories_hold_team_voices (evts : list VoiceStateUpdateEvent)
    (s0 : W) (id : ChannelID) :
  In id (temporaryCategories (self (deliver evts (start s0)))) →
  In id (team_voices (trace (deliver evts (start s0)))).
Proof.
  intros Hin.
  destruct (deliver_categories_accounted evts (start s0)) as (new & Ht & Hn).
  simpl in Ht. rewrite Ht. destruct (Hn id Hin) as [[]|Hnew]. exact Hnew.
Qed.
End Holdings.

(** ** After the teardown of a team *)

Section AfterTeardown.
Context {W : Type} `{!State W}.

(** X19. After the leave that tears a team down, [contains] still
    answers [true] for the team's voice channel in [temporaryCategories],
    whatever the session answered: line 194 removes the identifier of its
    parent, not the identifier that lines 153 and 177 use. *)
Theorem team_voice_still_contained (evt : VoiceStateUpdateEvent) (m : machine W)
    (member : Member) (beforeChannel : Channel) (w1 : W) :
  leaves (before_of evt m) evt = true →
  evt_Member evt = Some member →
  State_Channel (VoiceState_ChannelID (before_of evt m)) (s (self m))
    = (Ok beforeChannel, w1) →
  Channel_ParentID beforeChannel ≠ Channel_ID beforeChannel →
  contains (temporaryCategories (self m)) (Channel_ID beforeChannel) = true →
  contains (temporaryCategories (self (handle evt m))) (Channel_ID beforeChannel)
  = true.
Proof.
  intros Hleave Hmember Hfetch Hparent Htracked. apply contains_In.
  apply (team_teardown_keeps_tracking evt m member beforeChannel w1
           Hleave Hmember Hfetch Hparent).
  apply contains_In, Htracked.
Qed.
End AfterTeardown.

(** ** Further runs in the guild in memory *)

(** nari leaves the room 100. *)
Lemma leave_deletes_temporary_channel_witness :
  calls (nari_in 0) room_of_nari =
    [ (BeforeChannelFetch, GetChannel 100 (Ok nari_room));
      (LeaveDelete, DeleteChannel 100 "cleaning up" (Ok tt)) ]
  ∧ temporaryChannels (self (handle (nari_in 0) room_of_nari)) = []
  ∧ temporaryCategories (self (handle (nari_in 0) room_of_nari)) = []
  ∧ s (self (handle (nari_in 0) room_of_nari)) = mkGuild lobby 101 false false false.
Proof.
  exact (leave_deletes_temporary_channel (nari_in 0) room_of_nari nari nari_room
           (s (self room_of_nari)) eq_refl eq_refl eq_refl eq_refl eq_refl eq_refl).
Defined.

(** nari leaves a tracked group call that still has a recipient. *)
Lemma leave_with_recipients_deletes_nothing_witness :
  count_calls is_DeleteChannel (calls (nari_in 0) nari_at_party) = 0%nat
  ∧ temporaryChannels (self (handle (nari_in 0) nari_at_party)) = [20]
  ∧ temporaryCategories (self (handle (nari_in 0) nari_at_party)) = [].
Proof.
  apply (leave_with_recipients_deletes_nothing (nari_in 0) nari_at_party nari
           party party_guild);
    [reflexivity | reflexivity | vm_compute; reflexivity | discriminate].
Defined.

(** nari leaves the ordinary channel 13. *)
Lemma leave_of_untracked_channel_witness :
  let m := deliver [nari_in 13] (start discordia) in
  calls (nari_in 0) m =
    [ (BeforeChannelFetch,
       GetChannel 13 (Ok (mkChannel 13 1 GuildVoice "General" 10 []))) ]
  ∧ temporaryChannels (self (handle (nari_in 0) m)) = temporaryChannels (self m)
  ∧ temporaryCategories (self (handle (nari_in 0) m)) = temporaryCategories (self m).
Proof.
  exact (leave_of_untracked_channel (nari_in 0)
           (deliver [nari_in 13] (start discordia)) nari
           (mkChannel 13 1 GuildVoice "General" 10 []) discordia
           eq_refl eq_refl eq_refl eq_refl eq_refl).
Defined.

(** nari was seen in channel 99, which the guild does not have, and
    leaves. *)
Lemma leave_fetch_failure_aborts_witness :
  let m := deliver [nari_in 99] (start discordia) in
  calls (nari_in 0) m =
    [ (BeforeChannelFetch, GetChannel 99 (Err "Unknown Channel")) ]
  ∧ temporaryChannels (self (handle (nari_in 0) m)) = temporaryChannels (self m)
  ∧ temporaryCategories (self (handle (nari_in 0) m)) = temporaryCategories (self m).
Proof.
  exact (leave_fetch_failure_aborts (nari_in 0)
           (deliver [nari_in 99] (start discordia)) nari "Unknown Channel" discordia
           eq_refl eq_refl eq_refl).
Defined.

(** nari leaves the voice channel 102 of the team. *)
Lemma leave_tears_team_down_witness :
  ∃ children r,
    calls (nari_in 0) team_of_nari =
      [ (BeforeChannelFetch, GetChannel 102 (Ok nari_voice));
        (CategoryFetch, GetChannel 100 (Ok nari_category));
        (CategoryList,
         ListChannels 1 (Ok (lobby ++ [nari_category; nari_text; nari_voice]))) ]
      ++ children
      ++ [ (CategoryDelete, DeleteChannel 100 "cleaning up" r) ]
    ∧ Forall2 deletes_child children
        (children_of 100 (lobby ++ [nari_category; nari_text; nari_voice]))
    ∧ temporaryCategories (self (handle (nari_in 0) team_of_nari))
      = remove (temporaryCategories (self team_of_nari)) 100
    ∧ temporaryChannels (self (handle (nari_in 0) team_of_nari))
      = temporaryChannels (self team_of_nari).
Proof.
  exact (leave_tears_team_down (nari_in 0) team_of_nari nari nari_voice
           nari_category (lobby ++ [nari_category; nari_text; nari_voice])
           (s (self team_of_nari)) (s (self team_of_nari)) (s (self team_of_nari))
           eq_refl eq_refl eq_refl eq_refl eq_refl eq_refl eq_refl eq_refl).
Defined.

(** nari leaves the voice channel of a team whose category is gone; the
    channel is in both trackers, so line 168 deletes it first. *)
Lemma team_teardown_needs_category_witness :
  calls (nari_in 0) orphaned_room =
    [ (BeforeChannelFetch, GetChannel 102 (Ok nari_voice)) ]
    ++ [ (LeaveDelete, DeleteChannel 102 "cleaning up" (Ok tt)) ]
    ++ [ (CategoryFetch, GetChannel 100 (Err "Unknown Channel")) ]
  ∧ temporaryCategories (self (handle (nari_in 0) orphaned_room)) = [102]
  ∧ temporaryChannels (self (handle (nari_in 0) orphaned_room)) = [].
Proof.
  exact (team_teardown_needs_category (nari_in 0) orphaned_room nari nari_voice
           "Unknown Channel" (s (self orphaned_room))
           (mkGuild [] 103 false false false)
           eq_refl eq_refl eq_refl eq_refl eq_refl).
Defined.

(** nari leaves the voice channel of the team while the listing is out
    of order; the channel is in both trackers. *)
Lemma team_teardown_needs_listing_witness :
  calls (nari_in 0) team_unlisted_room =
    [ (BeforeChannelFetch, GetChannel 102 (Ok nari_voice)) ]
    ++ [ (LeaveDelete, DeleteChannel 102 "cleaning up" (Ok tt)) ]
    ++ [ (CategoryFetch, GetChannel 100 (Ok nari_category));
         (CategoryList, ListChannels 1 (Err "Service Unavailable")) ]
  ∧ temporaryCategories (self (handle (nari_in 0) team_unlisted_room)) = [102]
  ∧ temporaryChannels (self (handle (nari_in 0) team_unlisted_room)) = [].
Proof.
  exact (team_teardown_needs_listing (nari_in 0) team_unlisted_room nari nari_voice
           nari_category "Service Unavailable" (s (self team_unlisted_room))
           (mkUnlisted (mkGuild (lobby ++ [nari_category; nari_text]) 103
                          false false false))
           (mkUnlisted (mkGuild (lobby ++ [nari_category; nari_text]) 103
                          false false false))
           eq_refl eq_refl eq_refl eq_refl eq_refl eq_refl eq_refl).
Defined.

(** nari joins the ordinary channel 13. *)
Lemma join_of_ordinary_channel_witness :
  calls (nari_in 13) (start discordia) =
    [ (AfterChannelFetch,
       GetChannel 13 (Ok (mkChannel 13 1 GuildVoice "General" 10 []))) ]
  ∧ temporaryChannels (self (handle (nari_in 13) (start discordia))) = []
  ∧ temporaryCategories (self (handle (nari_in 13) (start discordia))) = [].
Proof.
  apply (join_of_ordinary_channel (nari_in 13) (start discordia) nari
           (mkChannel 13 1 GuildVoice "General" 10 []) discordia);
    first [reflexivity | discriminate].
Defined.

(** nari joins channel 99, which the guild does not have. *)
Lemma join_fetch_failure_aborts_witness :
  calls (nari_in 99) (start discordia) =
    [ (AfterChannelFetch, GetChannel 99 (Err "Unknown Channel")) ]
  ∧ temporaryChannels (self (handle (nari_in 99) (start discordia))) = []
  ∧ temporaryCategories (self (handle (nari_in 99) (start discordia))) = [].
Proof.
  exact (join_fetch_failure_aborts (nari_in 99) (start discordia) nari
           "Unknown Channel" discordia eq_refl eq_refl eq_refl).
Defined.

(** nari gets a room while mio sits in channel 13. *)
Lemma registry_is_last_seen_witness :
  userVoiceStates (self (deliver [nari_in 11; mio_in 13; nari_in 100]
                           (start discordia)))
  = recorded [nari_in 11; mio_in 13; nari_in 100] ∅.
Proof.
  apply (registry_is_last_seen [nari_in 11; mio_in 13; nari_in 100]
           (start discordia)).
  repeat constructor; discriminate.
Defined.

(** nari moves from the room 100 to channel 13: both valid, no call. *)
Lemma calls_session_iff_join_or_leave_witness :
  calls (nari_in 13) room_of_nari = []
  ↔ Snowflake_IsValid (VoiceState_ChannelID (before_of (nari_in 13) room_of_nari))
    = Snowflake_IsValid (evt_ChannelID (nari_in 13)).
Proof.
  apply (calls_session_iff_join_or_leave (nari_in 13) room_of_nari nari).
  reflexivity.
Defined.

(** The tracker of nari's team holds 102, the channel nari was moved to. *)
Lemma categories_hold_team_voices_witness :
  In 102 (team_voices (trace (deliver [nari_in 12; nari_in 102] (start discordia)))).
Proof.
  apply (categories_hold_team_voices [nari_in 12; nari_in 102] discordia 102).
  vm_compute. left. reflexivity.
Defined.

(** nari leaves the voice channel 102 of the team: it stays tracked. *)
Lemma team_voice_still_contained_witness :
  contains (temporaryCategories (self (handle (nari_in 0) team_of_nari))) 102 = true.
Proof.
  apply (team_voice_still_contained (nari_in 0) team_of_nari nari nari_voice
           (s (self team_of_nari)));
    first [reflexivity | discriminate].
Defined.
